(** * Verification of [build.py], the build script of the mcsrvstatus library

    The script sequences five phases (clean, dependency check, build,
    install, test) around three kinds of effects: it reads and deletes
    entries of the working directory, it imports Python modules, and it runs
    shell commands.  The development embeds the script in a small monad that
    threads the state of the machine, may raise a Python exception, and
    records every effect in a trace.

    Scope of the model.  The working directory is a tree of regular files and
    directories (no symbolic links, no permissions, no I/O errors other than
    the ones [os.path.exists], [os.walk] and [shutil.rmtree] report on such a
    tree).  The interpreter is CPython 3.11: [os.walk] recurses once for each
    level of the tree and raises [RecursionError] where the tree goes on
    below the depth the machine allows; [shutil.rmtree] is taken to delete a
    tree in one step, and the operating system sets no limit on the length
    of a path.
    The shell is an arbitrary function of the command line and of the state
    of the machine, and so is the import of a module that is found.  What a
    command hands back is text: a command whose output does not decode, on
    which [subprocess.run] raises [UnicodeDecodeError], is outside the
    model. *)

From Stdlib Require Import String Ascii List Bool ZArith Arith Lia.
From Stdlib Require Import DecimalString.
Import ListNotations.
Local Open Scope string_scope.
Local Open Scope list_scope.

(* ================================================================== *)
(** * The machine: working directory and importable modules           *)
(* ================================================================== *)

(** A path is the list of its components below the working directory; the
    empty path is the working directory itself (['.'] in the script). *)
Definition Path := list string.

#[warnings="-register-all"]
Inductive Node : Type :=
| File (data : string)
| Dir (entries : list (string * Node)).

Definition is_dir (n : Node) : bool :=
  match n with Dir _ => true | File _ => false end.

Definition is_file (n : Node) : bool :=
  match n with File _ => true | Dir _ => false end.

Fixpoint find_entry (c : string) (es : list (string * Node)) : option Node :=
  match es with
  | [] => None
  | (k, v) :: r => if k =? c then Some v else find_entry c r
  end.

Fixpoint lookup (p : Path) (n : Node) : option Node :=
  match p with
  | [] => Some n
  | c :: p' =>
      match n with
      | File _ => None
      | Dir es =>
          match find_entry c es with
          | Some v => lookup p' v
          | None => None
          end
      end
  end.

(** [upd_entry c f es] applies [f] to the entry named [c]. *)
Fixpoint upd_entry (c : string) (f : Node -> Node) (es : list (string * Node))
  : list (string * Node) :=
  match es with
  | [] => []
  | (k, v) :: r => if k =? c then (k, f v) :: r else (k, v) :: upd_entry c f r
  end.

(** [update p f n] applies [f] to the subtree at [p], when there is one. *)
Fixpoint update (p : Path) (f : Node -> Node) (n : Node) : Node :=
  match p with
  | [] => f n
  | c :: p' =>
      match n with
      | File _ => n
      | Dir es => Dir (upd_entry c (update p' f) es)
      end
  end.

Definition remove_child (c : string) (es : list (string * Node))
  : list (string * Node) :=
  filter (fun e => negb (fst e =? c)) es.

Definition drop_child (c : string) (n : Node) : Node :=
  match n with
  | File _ => n
  | Dir es => Dir (remove_child c es)
  end.

(** [unlink p n] takes the entry at [p], with all below it, out of its
    parent directory.  After it the path [p] does not exist. *)
Fixpoint unlink (p : Path) (n : Node) : Node :=
  match p with
  | [] => n
  | c :: p' =>
      match p' with
      | [] => drop_child c n
      | _ :: _ =>
          match n with
          | File _ => n
          | Dir es => Dir (upd_entry c (unlink p') es)
          end
      end
  end.

Definition dir_names (es : list (string * Node)) : list string :=
  map fst (filter (fun e => is_dir (snd e)) es).

Definition file_names (es : list (string * Node)) : list string :=
  map fst (filter (fun e => is_file (snd e)) es).

Fixpoint mem (c : string) (l : list string) : bool :=
  match l with
  | [] => false
  | x :: r => (x =? c) || mem c r
  end.

Fixpoint nodupb (l : list string) : bool :=
  match l with
  | [] => true
  | x :: r => negb (mem x r) && nodupb r
  end.

(** A directory never lists a name twice. *)
Fixpoint wf (n : Node) : bool :=
  match n with
  | File _ => true
  | Dir es =>
      nodupb (map fst es) &&
      (fix all (es : list (string * Node)) : bool :=
         match es with
         | [] => true
         | (_, v) :: r => wf v && all r
         end) es
  end.

Fixpoint wf_entries (es : list (string * Node)) : bool :=
  match es with
  | [] => true
  | (_, v) :: r => wf v && wf_entries r
  end.

Fixpoint height (n : Node) : nat :=
  match n with
  | File _ => 0
  | Dir es =>
      S ((fix hmax (es : list (string * Node)) : nat :=
            match es with
            | [] => 0
            | (_, v) :: r => Nat.max (height v) (hmax r)
            end) es)
  end.

Fixpoint height_entries (es : list (string * Node)) : nat :=
  match es with
  | [] => 0
  | (_, v) :: r => Nat.max (height v) (height_entries r)
  end.

(** The levels of a tree: a file is one level, a directory one more than
    the deepest of its entries. *)
Fixpoint levels (n : Node) : nat :=
  match n with
  | File _ => 1
  | Dir es =>
      S ((fix lmax (es : list (string * Node)) : nat :=
            match es with
            | [] => 0
            | (_, v) :: r => Nat.max (levels v) (lmax r)
            end) es)
  end.

Fixpoint levels_entries (es : list (string * Node)) : nat :=
  match es with
  | [] => 0
  | (_, v) :: r => Nat.max (levels v) (levels_entries r)
  end.

(** The machine outside the script: the working directory, the names of
    the modules an [import] statement finds, and the number of levels of
    directories [os.walk('.')] can go down before the interpreter refuses a
    further frame.  CPython 3.11 walks recursively, one frame for each level,
    and raises [RecursionError] beyond its recursion limit; with the limit
    it starts with (1000 frames) and the three frames of the script above
    the walk, that is 996 levels ([python_depth]). *)
Record Sys : Type :=
  mkSys { cwd : Node; site : list string; depth_limit : nat }.

Definition python_depth : nat := 996.

(* ================================================================== *)
(** * Exceptions, events and the monad of the script                  *)
(* ================================================================== *)

Inductive Exn : Type :=
| SystemExit (code : Z)
| CalledProcessError (returncode : Z) (cmd : string) (err : string)
| NotADirectoryError (p : Path)
| FileNotFoundError (p : Path)
| ValueError
| RecursionError.

Inductive Phase : Type := Clean | CheckDeps | Build | Install | RunTests.

(** What the script does to the outside, in order.  [EvEnter] and [EvReturn]
    mark the call of a phase function and the value it returns ([None] is
    Python's [None]). *)
Inductive Event : Type :=
| EvPrint (line : string)
| EvRmtree (p : Path)
| EvImport (name : string) (found : bool)
| EvSpawn (command : string) (returncode : Z)
| EvEnter (ph : Phase)
| EvReturn (ph : Phase) (v : option bool).

Inductive Outcome (A : Type) : Type :=
| Ret (a : A)
| Raise (e : Exn).
Arguments Ret {A} a.
Arguments Raise {A} e.

Definition M (A : Type) : Type := Sys -> Outcome A * Sys * list Event.

Definition ret {A} (a : A) : M A := fun s => (Ret a, s, []).

Definition bind {A B} (m : M A) (f : A -> M B) : M B :=
  fun s =>
    match m s with
    | (Ret a, s1, t1) =>
        match f a s1 with
        | (o, s2, t2) => (o, s2, t1 ++ t2)
        end
    | (Raise e, s1, t1) => (Raise e, s1, t1)
    end.

Definition raise {A} (e : Exn) : M A := fun s => (Raise e, s, []).

Definition emit (ev : Event) : M unit := fun s => (Ret tt, s, [ev]).

Definition get_sys : M Sys := fun s => (Ret s, s, []).

Definition put_sys (s : Sys) : M unit := fun _ => (Ret tt, s, []).

Declare Scope py_scope.
Delimit Scope py_scope with py.
Notation "x <- m ;; k" := (bind m (fun x => k))
  (at level 61, m at next level, right associativity) : py_scope.
Notation "m ;; k" := (bind m (fun _ => k))
  (at level 61, right associativity) : py_scope.
Local Open Scope py_scope.

Definition outcome_of {A} (r : Outcome A * Sys * list Event) : Outcome A :=
  fst (fst r).
Definition state_of {A} (r : Outcome A * Sys * list Event) : Sys :=
  snd (fst r).
Definition trace_of {A} (r : Outcome A * Sys * list Event) : list Event :=
  snd r.

(** [for x in l: body x] *)
Fixpoint for_each {A} (l : list A) (body : A -> M unit) : M unit :=
  match l with
  | [] => ret tt
  | x :: r => body x ;; for_each r body
  end.

(* ================================================================== *)
(** * The library functions the script calls                          *)
(* ================================================================== *)

Definition py_print (line : string) : M unit := emit (EvPrint line).

(** [os.path.exists]: true of files and of directories. *)
Definition os_path_exists (p : Path) : M bool :=
  s <- get_sys ;;
  ret (match lookup p (cwd s) with Some _ => true | None => false end).

(** [shutil.rmtree]: deletes a directory with all below it; raises on a
    path that does not exist and on one that is not a directory. *)
Definition shutil_rmtree (p : Path) : M unit :=
  s <- get_sys ;;
  match lookup p (cwd s) with
  | None => raise (FileNotFoundError p)
  | Some (File _) => raise (NotADirectoryError p)
  | Some (Dir _) =>
      put_sys (mkSys (unlink p (cwd s)) (site s) (depth_limit s)) ;;
      emit (EvRmtree p)
  end.

(** [os.scandir] as [os.walk] reads it: the names of the subdirectories and
    the names of the other entries; [None] when the path cannot be listed. *)
Definition scandir (top : Path) : M (option (list string * list string)) :=
  s <- get_sys ;;
  ret (match lookup top (cwd s) with
       | Some (Dir es) => Some (dir_names es, file_names es)
       | _ => None
       end).

(** [list.remove]: takes out the first occurrence, [ValueError] if none. *)
Fixpoint list_remove (x : string) (l : list string) : option (list string) :=
  match l with
  | [] => None
  | y :: r =>
      if y =? x then Some r
      else match list_remove x r with
           | Some r' => Some (y :: r')
           | None => None
           end
  end.

(** [os.walk(top)], top-down: list [top], hand [(root, dirs, files)] to the
    body of the loop, then walk each name the body left in [dirs].  A
    directory that cannot be listed is skipped ([onerror] is [None]).  The
    walk is recursive in CPython 3.11: [fuel] is the number of levels it may
    still go down, and with none left it raises [RecursionError]. *)
Fixpoint os_walk_from (fuel : nat)
    (body : Path -> list string -> list string -> M (list string))
    (top : Path) : M unit :=
  match fuel with
  | O => raise RecursionError
  | S fuel' =>
      sc <- scandir top ;;
      match sc with
      | None => ret tt
      | Some (dirs, files) =>
          dirs' <- body top dirs files ;;
          for_each dirs' (fun dirname => os_walk_from fuel' body (top ++ [dirname]))
      end
  end.

(** The walk as the interpreter runs it: it goes down as many levels as the
    machine allows, and raises [RecursionError] where the tree goes on
    below them. *)
Definition os_walk
    (body : Path -> list string -> list string -> M (list string))
    (top : Path) : M unit :=
  s <- get_sys ;;
  os_walk_from (depth_limit s) body top.

(** The text of a path that [os.path.join] builds up from ['.']. *)
Fixpoint path_str (p : Path) : string :=
  match p with
  | [] => ""
  | c :: p' => "/" ++ c ++ path_str p'
  end.

Definition walk_path_str (p : Path) : string := "." ++ path_str p.

(* ================================================================== *)
(** * The clean phase                                                  *)
(* ================================================================== *)

(** A phase function: its call and its return are recorded. *)
Definition phase {A} (ph : Phase) (v : A -> option bool) (m : M A) : M A :=
  emit (EvEnter ph) ;;
  r <- m ;;
  emit (EvReturn ph (v r)) ;;
  ret r.

Definition dirs_to_clean : list string := ["build"; "dist"; "mcsrvstatus.egg-info"].

(** The body of the first loop of [clean_build]. *)
Definition clean_dir (dir_name : string) : M unit :=
  ex <- os_path_exists [dir_name] ;;
  if ex then
    py_print ("Removing directory: " ++ dir_name) ;;
    shutil_rmtree [dir_name]
  else ret tt.

(** The inner loop over the copy [dirs[:]]; [dirs] is the list [os.walk]
    goes on with. *)
Fixpoint remove_pycache (root : Path) (copy : list string) (dirs : list string)
  : M (list string) :=
  match copy with
  | [] => ret dirs
  | dir_name :: rest =>
      if dir_name =? "__pycache__" then
        let pycache_path := root ++ [dir_name] in
        py_print ("Removing: " ++ walk_path_str pycache_path) ;;
        shutil_rmtree pycache_path ;;
        match list_remove dir_name dirs with
        | None => raise ValueError
        | Some dirs' => remove_pycache root rest dirs'
        end
      else remove_pycache root rest dirs
  end.

Definition clean_walk_body (root : Path) (dirs files : list string)
  : M (list string) :=
  remove_pycache root dirs dirs.

Definition clean_build : M unit :=
  phase Clean (fun _ => None)
    (for_each dirs_to_clean clean_dir ;;
     os_walk clean_walk_body []).

(* ------------------------------------------------------------------ *)
(** ** A sample working directory                                      *)

Definition sample_tree : Node :=
  Dir [ ("setup.py", File "setup()");
        ("build", Dir [("lib", Dir [("m.py", File "x")])]);
        ("dist", Dir [("pkg.tar.gz", File "z")]);
        ("mcsrvstatus.egg-info", Dir []);
        ("__pycache__", Dir [("b.pyc", File "c")]);
        ("mcsrvstatus", Dir [ ("__init__.py", File "i");
                              ("__pycache__", Dir [("i.pyc", File "c")]);
                              ("sub", Dir [("__pycache__", Dir [])]) ]);
        ("tests", Dir [("__pycache__", File "not a directory")]) ].

Definition sample_sys : Sys := mkSys sample_tree [] python_depth.

(* ================================================================== *)
(** * Shell commands and the other phases                              *)
(* ================================================================== *)

(** What [subprocess.run] hands back with [capture_output=True, text=True]. *)
Record Completed : Type :=
  mkCompleted { returncode : Z; stdout : string; stderr : string }.

Definition nonempty (s : string) : bool :=
  match s with EmptyString => false | String _ _ => true end.

(** [x or y] on strings. *)
Definition str_or (x y : string) : string := if nonempty x then x else y.

Definition str_of_Z (z : Z) : string := NilZero.string_of_int (Z.to_int z).

(** [signal.Signals(n)] on Linux: the name of the signal numbered [n], when
    it has one ([None] is Python's [ValueError]). *)
Definition signal_name (n : Z) : option string :=
  match n with
  | 1 => Some "SIGHUP"    | 2 => Some "SIGINT"    | 3 => Some "SIGQUIT"
  | 4 => Some "SIGILL"    | 5 => Some "SIGTRAP"   | 6 => Some "SIGABRT"
  | 7 => Some "SIGBUS"    | 8 => Some "SIGFPE"    | 9 => Some "SIGKILL"
  | 10 => Some "SIGUSR1"  | 11 => Some "SIGSEGV"  | 12 => Some "SIGUSR2"
  | 13 => Some "SIGPIPE"  | 14 => Some "SIGALRM"  | 15 => Some "SIGTERM"
  | 16 => Some "SIGSTKFLT" | 17 => Some "SIGCHLD" | 18 => Some "SIGCONT"
  | 19 => Some "SIGSTOP"  | 20 => Some "SIGTSTP"  | 21 => Some "SIGTTIN"
  | 22 => Some "SIGTTOU"  | 23 => Some "SIGURG"   | 24 => Some "SIGXCPU"
  | 25 => Some "SIGXFSZ"  | 26 => Some "SIGVTALRM" | 27 => Some "SIGPROF"
  | 28 => Some "SIGWINCH" | 29 => Some "SIGIO"    | 30 => Some "SIGPWR"
  | 31 => Some "SIGSYS"   | 34 => Some "SIGRTMIN" | 64 => Some "SIGRTMAX"
  | _ => None
  end%Z.

(** [str(e)] of a [CalledProcessError].  A negative return code is a death
    by signal: the text then holds the [repr] of the signal, or its number
    when the signal has no name. *)
Definition str_CalledProcessError (rc : Z) (cmd : string) : string :=
  if (rc <? 0)%Z
  then match signal_name (- rc) with
       | Some name =>
           "Command '" ++ cmd ++ "' died with <Signals." ++ name ++ ": " ++
           str_of_Z (- rc) ++ ">."
       | None =>
           "Command '" ++ cmd ++ "' died with unknown signal " ++ str_of_Z (- rc) ++ "."
       end
  else "Command '" ++ cmd ++ "' returned non-zero exit status " ++ str_of_Z rc ++ ".".

(** [try: m except CalledProcessError as e: handler e] *)
Definition try_except_CalledProcessError {A} (m : M A)
    (handler : Z -> string -> string -> M A) : M A :=
  fun s =>
    match m s with
    | (Raise (CalledProcessError rc cmd err), s1, t1) =>
        match handler rc cmd err s1 with
        | (o, s2, t2) => (o, s2, t1 ++ t2)
        end
    | r => r
    end.

Definition sys_exit {A} (code : Z) : M A := raise (SystemExit code).

Fixpoint str_times (c : string) (n : nat) : string :=
  match n with
  | O => ""
  | S n' => c ++ str_times c n'
  end.

(** The exit status of the process that ran [main()] as its last statement:
    0 on a normal return, the code of [sys.exit], 1 on any other exception
    that nothing caught. *)
Definition exit_status {A} (o : Outcome A) : Z :=
  match o with
  | Ret _ => 0
  | Raise (SystemExit code) => code
  | Raise _ => 1
  end.

Section Script.

(** The shell: what a command line does to the machine and what it reports. *)
Variable shell : string -> Sys -> Completed * Sys.

(** What importing a module that is found does to the machine: the module's
    code runs, and the interpreter writes the byte code of what it loaded
    to [__pycache__] directories next to the sources, which lie below the
    working directory when the project holds its own environment. *)
Variable load : string -> Sys -> Sys.

(** [import name], its result recorded.  A module that is not found raises
    [ImportError], which is [false] here, and the machine stays as it was;
    [site] lists the modules whose import succeeds. *)
Definition py_import (name : string) : M bool :=
s <- get_sys ;;
let found := mem name (site s) in
emit (EvImport name found) ;;
(if found then put_sys (load name s) else ret tt) ;;
ret found.

(** [subprocess.run(command, shell=True, check=True, capture_output=True,
  text=True)]: the command runs, and a return code other than 0 raises
  [CalledProcessError].  The result holds the output as text. *)
Definition subprocess_run (command : string) : M Completed :=
s <- get_sys ;;
let result := fst (shell command s) in
put_sys (snd (shell command s)) ;;
emit (EvSpawn command (returncode result)) ;;
if (returncode result =? 0)%Z then ret result
else raise (CalledProcessError (returncode result) command (stderr result)).

Definition run_command (command description : string) : M bool :=
py_print ("Running: " ++ str_or description command) ;;
try_except_CalledProcessError
  (result <- subprocess_run command ;;
   (if nonempty (stdout result) then py_print (stdout result) else ret tt) ;;
   ret true)
  (fun rc cmd err =>
     py_print ("Command execution error: " ++ str_CalledProcessError rc cmd) ;;
     (if nonempty err then py_print ("Stderr: " ++ err) else ret tt) ;;
     ret false).

Definition build_package : M bool :=
phase Build Some
  (py_print "Building package..." ;;
   sdist <- run_command "python setup.py sdist" "Creating source distribution" ;;
   if negb sdist then ret false
   else
     wheel <- run_command "python setup.py bdist_wheel" "Creating wheel package" ;;
     if negb wheel then ret false
     else ret true).

Definition install_package : M bool :=
phase Install Some
  (py_print "Installing package in development mode..." ;;
   run_command "pip install -e ." "Installing in development mode").

Definition run_tests : M bool :=
phase RunTests Some
  (py_print "Running tests..." ;;
   run_command "python -m pytest tests/ -v" "Running tests").

(** Each [try: import ... except ImportError: ...] block yields whether
    the function goes on: [false] is the [return False] inside the block. *)
Definition check_requirements : M bool :=
  phase CheckDeps Some
    (py_print "Checking dependencies..." ;;
     requests <-
       (found <- py_import "requests" ;;
        if found then
          py_print "✓ requests installed" ;;
          ret true
        else
          py_print "✗ requests not installed" ;;
          py_print "Installing requests..." ;;
          run_command "pip install requests" "Installing requests") ;;
     if negb requests then ret false
     else
       aiohttp <-
         (found <- py_import "aiohttp" ;;
          if found then
            py_print "✓ aiohttp installed" ;;
            ret true
          else
            py_print "✗ aiohttp not installed" ;;
            py_print "Installing aiohttp..." ;;
            run_command "pip install aiohttp" "Installing aiohttp") ;;
       if negb aiohttp then ret false
       else ret true).

(** The shape the two blocks of [check_requirements] share. *)
Definition require (name : string) : M bool :=
  found <- py_import name ;;
  if found then
    py_print ("✓ " ++ name ++ " installed") ;;
    ret true
  else
    py_print ("✗ " ++ name ++ " not installed") ;;
    py_print ("Installing " ++ name ++ "...") ;;
    run_command ("pip install " ++ name) ("Installing " ++ name).

(** [main] from "Parse command line arguments" on: the dispatch on
  [sys.argv]. *)
Definition dispatch (argv : list string) : M unit :=
if (1 <? length argv)%nat then
  let command := nth 1 argv "" in
  if command =? "clean" then
    clean_build
  else if command =? "build" then
    clean_build ;;
    ok <- check_requirements ;;
    if ok then build_package ;; ret tt else ret tt
  else if command =? "install" then
    ok <- check_requirements ;;
    if ok then install_package ;; ret tt else ret tt
  else if command =? "test" then
    ok <- check_requirements ;;
    if ok then run_tests ;; ret tt else ret tt
  else if command =? "all" then
    clean_build ;;
    ok <- check_requirements ;;
    if ok then
      built <- build_package ;;
      if built then
        installed <- install_package ;;
        if installed then run_tests ;; ret tt else ret tt
      else ret tt
    else ret tt
  else
    py_print ("Unknown command: " ++ command) ;;
    py_print "Available commands: clean, build, install, test, all"
else
  clean_build ;;
  ok <- check_requirements ;;
  if ok then
    built <- build_package ;;
    if built then
      py_print "\nBuild completed successfully!" ;;
      py_print "\nTo install run:" ;;
      py_print "python build.py install" ;;
      py_print "\nTo run tests:" ;;
      py_print "python build.py test"
    else ret tt
  else ret tt.

Definition main (argv : list string) : M unit :=
py_print "Building mcsrvstatus library" ;;
py_print (str_times "=" 50) ;;
marker <- os_path_exists ["setup.py"] ;;
(if negb marker then
   py_print "Error: setup.py file not found!" ;;
   py_print "Make sure you are in the project root directory." ;;
   sys_exit 1
 else ret tt) ;;
dispatch argv.

End Script.

(** A shell in which [pip install requests] succeeds and makes the module
    importable, and every other command fails. *)
Definition sample_shell (command : string) (s : Sys) : Completed * Sys :=
  if command =? "pip install requests"
  then (mkCompleted 0 "Successfully installed requests" "", mkSys (cwd s) ("requests" :: site s) (depth_limit s))
  else (mkCompleted 2 "" "boom", s).

(** An import that leaves the machine as it is: the byte code is up to date,
    or the modules lie outside the working directory. *)
Definition no_load (name : string) (s : Sys) : Sys := s.

(** A shell in which every command fails and changes nothing. *)
Definition offline_shell (command : string) (s : Sys) : Completed * Sys :=
  (mkCompleted 1 "" "no network", s).

(** A working directory where [build] is a regular file. *)
Definition blocked_sys : Sys :=
  mkSys (Dir [("setup.py", File "setup()"); ("build", File "notes")]) []
        python_depth.





(** An empty working directory. *)
Definition empty_sys : Sys := mkSys (Dir []) [] python_depth.

(** What [main] prints before it exits for want of [setup.py]. *)
Definition marker_error : list Event :=
  [EvPrint "Error: setup.py file not found!";
   EvPrint "Make sure you are in the project root directory."].

(* ================================================================== *)
(** * What the clean phase leaves behind                               *)
(* ================================================================== *)

Definition pycache : string := "__pycache__".

Definition is_pycache_dir (e : string * Node) : bool :=
  (fst e =? pycache) && is_dir (snd e).

(** The entries of a directory that the walk leaves in place. *)
Definition live (es : list (string * Node)) : list (string * Node) :=
  filter (fun e => negb (is_pycache_dir e)) es.

(** The tree without its [__pycache__] directories, at every depth. *)
Fixpoint prune (n : Node) : Node :=
  match n with
  | File d => File d
  | Dir es =>
      Dir ((fix go (es : list (string * Node)) : list (string * Node) :=
              match es with
              | [] => []
              | (k, v) :: r =>
                  if is_pycache_dir (k, v) then go r else (k, prune v) :: go r
              end) es)
  end.

Fixpoint prune_entries (es : list (string * Node)) : list (string * Node) :=
  match es with
  | [] => []
  | (k, v) :: r =>
      if is_pycache_dir (k, v) then prune_entries r
      else (k, prune v) :: prune_entries r
  end.

(** What the walk of [clean_build] prints and deletes below [root], where
    [n] is the tree at [root]. *)
Fixpoint walk_events (root : Path) (n : Node) : list Event :=
  match n with
  | File _ => []
  | Dir es =>
      (if mem pycache (dir_names es)
       then [EvPrint ("Removing: " ++ walk_path_str (root ++ [pycache]));
             EvRmtree (root ++ [pycache])]
       else []) ++
      (fix go (es : list (string * Node)) : list Event :=
         match es with
         | [] => []
         | (k, v) :: r =>
             if is_pycache_dir (k, v) then go r
             else (if is_dir v then walk_events (root ++ [k]) v else []) ++ go r
         end) es
  end.

Fixpoint walk_children (root : Path) (es : list (string * Node)) : list Event :=
  match es with
  | [] => []
  | (k, v) :: r =>
      if is_pycache_dir (k, v) then walk_children root r
      else (if is_dir v then walk_events (root ++ [k]) v else []) ++ walk_children root r
  end.

(** The first loop of [clean_build] on the top of the tree. *)
Definition drop_all (names : list string) (n : Node) : Node :=
  fold_left (fun acc d => drop_child d acc) names n.



(** Whether [w] holds of every directory among the entries. *)
Fixpoint all_dirs (w : Node -> bool) (es : list (string * Node)) : bool :=
  match es with
  | [] => true
  | (_, v) :: r => (if is_dir v then w v else true) && all_dirs w r
  end.

(** The walk of [clean_build], allowed [fuel] levels, gets through the
    tree: below the [__pycache__] directories it removes, no directory lies
    deeper than it may go. *)
Fixpoint finishes (fuel : nat) (n : Node) : bool :=
  match fuel with
  | O => false
  | S fuel' =>
      match n with
      | File _ => true
      | Dir es => all_dirs (finishes fuel') (live es)
      end
  end.

(** The entries of a directory after the walk went through its
    subdirectories in order, [w] being what it leaves of one and [ok]
    whether it gets through it: the walk stops in the first subdirectory
    it does not get through, and leaves what comes after as it is. *)
Fixpoint sweep_entries (w : Node -> Node) (ok : Node -> bool)
    (es : list (string * Node)) : list (string * Node) :=
  match es with
  | [] => []
  | (k, v) :: r =>
      if is_dir v
      then (k, w v) :: (if ok v then sweep_entries w ok r else r)
      else (k, v) :: sweep_entries w ok r
  end.

(** The tree the walk of [clean_build] leaves when it may go down [fuel]
    levels. *)
Fixpoint swept (fuel : nat) (n : Node) : Node :=
  match fuel with
  | O => n
  | S fuel' =>
      match n with
      | File _ => n
      | Dir es => Dir (sweep_entries (swept fuel') (finishes fuel') (live es))
      end
  end.

Fixpoint sweep_children (ev : string -> Node -> list Event) (ok : Node -> bool)
    (es : list (string * Node)) : list Event :=
  match es with
  | [] => []
  | (k, v) :: r =>
      if is_dir v
      then ev k v ++ (if ok v then sweep_children ev ok r else [])
      else sweep_children ev ok r
  end.

(** What that walk prints and deletes below [root], where [n] is the tree
    at [root]. *)
Fixpoint swept_events (fuel : nat) (root : Path) (n : Node) : list Event :=
  match fuel with
  | O => []
  | S fuel' =>
      match n with
      | File _ => []
      | Dir es =>
          (if mem pycache (dir_names es)
           then [EvPrint ("Removing: " ++ walk_path_str (root ++ [pycache]));
                 EvRmtree (root ++ [pycache])]
           else []) ++
          sweep_children (fun k v => swept_events fuel' (root ++ [k]) v)
                         (finishes fuel') (live es)
      end
  end.

(** The outcome of a walk. *)
Definition walk_outcome (finished : bool) : Outcome unit :=
  if finished then Ret tt else Raise RecursionError.

(** The kind of an entry, and what a path names in a tree. *)
Inductive Entry : Type :=
| IsFile (data : string)
| IsDir.

Definition kind (n : Node) : Entry :=
  match n with File d => IsFile d | Dir _ => IsDir end.

Definition entry_at (p : Path) (n : Node) : option Entry :=
  option_map kind (lookup p n).

(** [p] is, or lies below, a directory named [__pycache__] of the tree. *)
Fixpoint in_pycache (p : Path) (n : Node) : bool :=
  match p with
  | [] => false
  | c :: p' =>
      match n with
      | File _ => false
      | Dir es =>
          match find_entry c es with
          | Some v => is_pycache_dir (c, v) || in_pycache p' v
          | None => false
          end
      end
  end.

(** The paths the clean phase is after: the three build directories with
    all below them, and every directory named [__pycache__] with all below
    it. *)
Definition to_remove (fs : Node) (p : Path) : Prop :=
  (exists d r, In d dirs_to_clean /\ p = d :: r) \/
  (exists q r es, p = q ++ pycache :: r /\ lookup (q ++ [pycache]) fs = Some (Dir es)).


(** [removedb fs p] decides [to_remove fs p]. *)
Definition removedb (fs : Node) (p : Path) : bool :=
  match p with
  | [] => false
  | c :: _ => mem c dirs_to_clean || in_pycache p fs
  end.

Definition rmtree_of (ev : Event) : list Path :=
  match ev with EvRmtree p => [p] | _ => [] end.

Definition rmtrees (t : list Event) : list Path := flat_map rmtree_of t.

(* ================================================================== *)
(** * Reading a trace                                                  *)
(* ================================================================== *)

Definition is_phase_event (ev : Event) : bool :=
  match ev with
  | EvEnter _ | EvReturn _ _ => true
  | _ => false
  end.

Definition phase_events (t : list Event) : list Event := filter is_phase_event t.

(** The phase functions called, in the order of the calls. *)
Definition call_of (ev : Event) : list Phase :=
  match ev with EvEnter ph => [ph] | _ => [] end.

Definition calls (t : list Event) : list Phase := flat_map call_of t.

(** The shell commands run, each with its return code. *)
Definition spawn_of (ev : Event) : list (string * Z) :=
  match ev with EvSpawn c rc => [(c, rc)] | _ => [] end.

Definition spawns (t : list Event) : list (string * Z) := flat_map spawn_of t.

(** The modules imported, each with the result. *)
Definition import_of (ev : Event) : list (string * bool) :=
  match ev with EvImport m found => [(m, found)] | _ => [] end.

Definition imports (t : list Event) : list (string * bool) := flat_map import_of t.

(** No phase is called after a phase returned [False]. *)
Fixpoint halts_on_failure (t : list Event) : bool :=
  match t with
  | [] => true
  | EvReturn _ (Some false) :: t' =>
      match calls t' with [] => true | _ :: _ => false end
  | _ :: t' => halts_on_failure t'
  end.

Definition phase_eqb (p q : Phase) : bool :=
  match p, q with
  | Clean, Clean | CheckDeps, CheckDeps | Build, Build
  | Install, Install | RunTests, RunTests => true
  | _, _ => false
  end.

(** What the call of the phase [ph] returned, by the trace; [None] when the
    trace holds no return of [ph]: it was not called, or its call raised. *)
Fixpoint result_of (ph : Phase) (t : list Event) : option (option bool) :=
  match t with
  | [] => None
  | EvReturn q v :: t' => if phase_eqb q ph then Some v else result_of ph t'
  | _ :: t' => result_of ph t'
  end.

(** The phases of [row] that a short-circuiting run calls, given what the
    trace says each of them returned: the row up to its first phase that
    failed, that phase included.  A phase fails when it returns [False];
    one that does not return ends the row as well. *)
Fixpoint short_circuit (row : list Phase) (t : list Event) : list Phase :=
  match row with
  | [] => []
  | ph :: rest =>
      ph :: match result_of ph t with
            | Some (Some false) | None => []
            | Some _ => short_circuit rest t
            end
  end.

(** The commands [main] knows. *)
Inductive Command : Type := CmdClean | CmdBuild | CmdInstall | CmdTest | CmdAll.

Definition command_name (c : Command) : string :=
  match c with
  | CmdClean => "clean"
  | CmdBuild => "build"
  | CmdInstall => "install"
  | CmdTest => "test"
  | CmdAll => "all"
  end.

Definition known_command (a : string) : bool :=
  existsb (String.eqb a) ["clean"; "build"; "install"; "test"; "all"].

(** The command-to-phase table of the specification (section 4.1), row by
    row; the last row of the table, no command, is [default_phases]. *)
Definition command_phases (c : Command) : list Phase :=
  match c with
  | CmdClean => [Clean]
  | CmdBuild => [Clean; CheckDeps; Build]
  | CmdInstall => [CheckDeps; Install]
  | CmdTest => [CheckDeps; RunTests]
  | CmdAll => [Clean; CheckDeps; Build; Install; RunTests]
  end.

Definition default_phases : list Phase := [Clean; CheckDeps; Build].

(** The two lines every run of [main] starts with. *)
Definition banner : list Event :=
  [EvPrint "Building mcsrvstatus library"; EvPrint (str_times "=" 50)].

(** The guidance the default run ends with. *)
Definition guidance : list Event :=
  [EvPrint "\nBuild completed successfully!";
   EvPrint "\nTo install run:";
   EvPrint "python build.py install";
   EvPrint "\nTo run tests:";
   EvPrint "python build.py test"].

(** [main] calls [clean_build] on this command line. *)
Definition runs_clean (argv : list string) : bool :=
  match argv with
  | _ :: a :: _ => existsb (String.eqb a) ["clean"; "build"; "all"]
  | _ => true
  end.

(** What one call of [run_command] leaves in the trace, given what the
    shell handed back. *)
Definition run_command_trace (command description : string) (r : Completed)
  : list Event :=
  EvPrint ("Running: " ++ str_or description command) ::
  EvSpawn command (returncode r) ::
  (if (returncode r =? 0)%Z
   then (if nonempty (stdout r) then [EvPrint (stdout r)] else [])
   else EvPrint ("Command execution error: " ++
                 str_CalledProcessError (returncode r) command) ::
        (if nonempty (stderr r) then [EvPrint ("Stderr: " ++ stderr r)] else [])).

(** The events of [main] itself: those outside every phase.  [inside] tells
    whether the trace starts within a phase. *)
Fixpoint outside (inside : bool) (t : list Event) : list Event :=
  match t with
  | [] => []
  | EvEnter _ :: t' => outside true t'
  | EvReturn _ _ :: t' => outside false t'
  | ev :: t' => if inside then outside inside t' else ev :: outside inside t'
  end.

Definition top_level (t : list Event) : list Event := outside false t.

(** The trace of one call of the phase function [ph]: the call, events that
    are not calls or returns of phases, and the return of [r], or no return
    when the call raised ([r] is [None]). *)
Definition phase_trace (ph : Phase) (r : option (option bool)) (t : list Event)
  : Prop :=
  exists inner,
    phase_events inner = [] /\
    t = EvEnter ph :: inner ++
        match r with Some v => [EvReturn ph v] | None => [] end.

(** A computation that calls no phase function and does not exit. *)
Definition quiet {A} (m : M A) : Prop :=
  forall s,
    phase_events (trace_of (m s)) = [] /\
    forall c, outcome_of (m s) <> Raise (SystemExit c).

(* ================================================================== *)
(** * Further readings of a run                                        *)
(* ================================================================== *)

(** The lines printed. *)
Definition print_of (ev : Event) : list string :=
  match ev with EvPrint line => [line] | _ => [] end.

Definition printed (t : list Event) : list string := flat_map print_of t.







(** [l] is [L] with some entries left out. *)
Fixpoint subseq (l L : list string) : bool :=
  match l, L with
  | [], _ => true
  | _ :: _, [] => false
  | x :: l', y :: L' => if x =? y then subseq l' L' else subseq l L'
  end.

(** The command lines that occur in the script, in the order of the phases
    that run them. *)
Definition all_commands : list string :=
  ["pip install requests"; "pip install aiohttp";
   "python setup.py sdist"; "python setup.py bdist_wheel";
   "pip install -e ."; "python -m pytest tests/ -v"].

(** [build_package] returned [True] in the trace. *)
Definition build_succeeded (t : list Event) : bool :=
  existsb (fun ev => match ev with
                     | EvReturn Build (Some true) => true
                     | _ => false
                     end) (phase_events t).

(** A working directory where [build] is a directory and [dist] a regular
    file. *)
Definition half_blocked_sys : Sys :=
  mkSys (Dir [ ("setup.py", File "setup()");
               ("build", Dir [("lib", Dir [])]);
               ("dist", File "notes");
               ("src", Dir [("__pycache__", Dir [])]) ])
        ["requests"] python_depth.

(** A computation that runs no command, imports nothing and leaves the
    importable modules alone. *)
Definition local_run {A} (m : M A) : Prop :=
  forall s,
    site (state_of (m s)) = site s /\
    spawns (trace_of (m s)) = [] /\
    imports (trace_of (m s)) = [].


(** A computation whose commands are, in order, among those of [L]. *)
Definition runs_within (L : list string) {A} (m : M A) : Prop :=
  forall s, subseq (map fst (spawns (trace_of (m s)))) L = true.

(** A computation that hands nothing to [shutil.rmtree]. *)
Definition deletes_nothing {A} (m : M A) : Prop :=
  forall s, rmtrees (trace_of (m s)) = [].

(** [setup.py] is in the working directory. *)
Definition has_marker (s : Sys) : bool :=
  match lookup ["setup.py"] (cwd s) with Some _ => true | None => false end.

(** Some directory of the tree is named [__pycache__]. *)
Fixpoint has_pycache_dir (n : Node) : bool :=
  match n with
  | File _ => false
  | Dir es =>
      (fix any (es : list (string * Node)) : bool :=
         match es with
         | [] => false
         | (k, v) :: r => is_pycache_dir (k, v) || has_pycache_dir v || any r
         end) es
  end.

Fixpoint any_pycache_dir (es : list (string * Node)) : bool :=
  match es with
  | [] => false
  | (k, v) :: r => is_pycache_dir (k, v) || has_pycache_dir v || any_pycache_dir r
  end.

(** A working directory with nothing to clean: no build directory, and
    [__pycache__] only as the name of a regular file. *)
Definition tidy_sys : Sys :=
  mkSys (Dir [ ("setup.py", File "setup()");
               ("mcsrvstatus", Dir [("__init__.py", File "i")]);
               ("tests", Dir [("__pycache__", File "not a directory")]) ])
        ["requests"; "aiohttp"] python_depth.

(* ================================================================== *)
(** * Trees and paths                                                  *)
(* ================================================================== *)

Section NodeInduction.
Variable P : Node -> Prop.
Hypothesis HFile : forall d, P (File d).
Hypothesis HDir : forall es, Forall (fun e => P (snd e)) es -> P (Dir es).

Fixpoint Node_induction (n : Node) : P n :=
  match n with
  | File d => HFile d
  | Dir es =>
      HDir es
        ((fix go (es : list (string * Node)) : Forall (fun e => P (snd e)) es :=
            match es with
            | [] => Forall_nil _
            | (k, v) :: r => Forall_cons (k, v) (Node_induction v) (go r)
            end) es)
  end.
End NodeInduction.

Lemma prune_Dir es : prune (Dir es) = Dir (prune_entries es).
Proof. reflexivity. Qed.

Lemma walk_events_Dir root es :
  walk_events root (Dir es) =
  (if mem pycache (dir_names es)
   then [EvPrint ("Removing: " ++ walk_path_str (root ++ [pycache]));
         EvRmtree (root ++ [pycache])]
   else []) ++ walk_children root es.
Proof.
  simpl. f_equal. induction es as [|[k v] r IH]; simpl; [reflexivity|].
  rewrite IH. reflexivity.
Qed.

Lemma wf_Dir es : wf (Dir es) = nodupb (map fst es) && wf_entries es.
Proof. reflexivity. Qed.

Lemma height_Dir es : height (Dir es) = S (height_entries es).
Proof. reflexivity. Qed.

Lemma mem_true_iff c l : mem c l = true <-> In c l.
Proof.
  induction l as [|x r IH]; simpl.
  - split; [discriminate | tauto].
  - rewrite orb_true_iff, IH, String.eqb_eq. tauto.
Qed.

Lemma mem_false_iff c l : mem c l = false <-> ~ In c l.
Proof.
  rewrite <- mem_true_iff. destruct (mem c l); split; congruence.
Qed.

Lemma nodupb_NoDup l : nodupb l = true <-> NoDup l.
Proof.
  induction l as [|x r IH]; simpl.
  - split; [constructor | reflexivity].
  - rewrite andb_true_iff, negb_true_iff, mem_false_iff, IH. split.
    + intros [H1 H2]. constructor; assumption.
    + intros H. inversion H; subst. split; assumption.
Qed.

Lemma upd_entry_ext c f g es :
  (forall v, f v = g v) -> upd_entry c f es = upd_entry c g es.
Proof.
  intros H. induction es as [|[k v] r IH]; simpl; [reflexivity|].
  destruct (k =? c); [rewrite H | rewrite IH]; reflexivity.
Qed.

Lemma update_ext p f g n :
  (forall v, f v = g v) -> update p f n = update p g n.
Proof.
  intros H. revert n. induction p as [|c p IH]; intros n; simpl; [apply H|].
  destruct n as [d|es]; [reflexivity|]. f_equal. apply upd_entry_ext, IH.
Qed.

Lemma update_app p q f n : update (p ++ q) f n = update p (update q f) n.
Proof.
  revert n. induction p as [|c p IH]; intros n; simpl; [reflexivity|].
  destruct n as [d|es]; [reflexivity|]. f_equal. apply upd_entry_ext, IH.
Qed.

Lemma upd_entry_upd_entry c f g es :
  upd_entry c f (upd_entry c g es) = upd_entry c (fun v => f (g v)) es.
Proof.
  induction es as [|[k v] r IH]; simpl; [reflexivity|].
  destruct (k =? c) eqn:E; simpl; rewrite E; [reflexivity|].
  rewrite IH. reflexivity.
Qed.

Lemma update_update p f g n :
  update p f (update p g n) = update p (fun v => f (g v)) n.
Proof.
  revert n. induction p as [|c p IH]; intros n; simpl; [reflexivity|].
  destruct n as [d|es]; simpl; [reflexivity|]. f_equal.
  rewrite upd_entry_upd_entry. apply upd_entry_ext, IH.
Qed.

Lemma unlink_cons a b p n :
  unlink (a :: b :: p) n =
  match n with File _ => n | Dir es => Dir (upd_entry a (unlink (b :: p)) es) end.
Proof. reflexivity. Qed.

Lemma unlink_snoc p c n : unlink (p ++ [c]) n = update p (drop_child c) n.
Proof.
  revert n. induction p as [|a p IH]; intros n; [reflexivity|].
  destruct p as [|b p].
  - simpl. destruct n as [d|es]; reflexivity.
  - change ((a :: b :: p) ++ [c]) with (a :: b :: (p ++ [c])).
    rewrite unlink_cons. simpl update.
    destruct n as [d|es]; [reflexivity|]. f_equal.
    apply upd_entry_ext. intros v. apply (IH v).
Qed.

Lemma lookup_app p q n :
  lookup (p ++ q) n =
  match lookup p n with Some m => lookup q m | None => None end.
Proof.
  revert n. induction p as [|c p IH]; intros n; simpl; [reflexivity|].
  destruct n as [d|es]; [reflexivity|].
  destruct (find_entry c es); [apply IH | reflexivity].
Qed.

Lemma find_upd_entry_same c f es :
  find_entry c (upd_entry c f es) = option_map f (find_entry c es).
Proof.
  induction es as [|[k v] r IH]; simpl; [reflexivity|].
  destruct (k =? c) eqn:E; simpl; rewrite E; [reflexivity | apply IH].
Qed.

Lemma find_upd_entry_other c d f es :
  c <> d -> find_entry d (upd_entry c f es) = find_entry d es.
Proof.
  intros Hcd. induction es as [|[k v] r IH]; simpl; [reflexivity|].
  destruct (k =? c) eqn:E; simpl.
  - apply String.eqb_eq in E. subst k.
    destruct (c =? d) eqn:E'; [apply String.eqb_eq in E'; contradiction | reflexivity].
  - rewrite IH. reflexivity.
Qed.

Lemma lookup_update_same p f n :
  lookup p (update p f n) = option_map f (lookup p n).
Proof.
  revert n. induction p as [|c p IH]; intros n; simpl; [reflexivity|].
  destruct n as [d|es]; simpl; [reflexivity|].
  rewrite find_upd_entry_same. destruct (find_entry c es); simpl; [apply IH | reflexivity].
Qed.

Lemma lookup_update_sibling p c d q f n :
  c <> d ->
  lookup (p ++ d :: q) (update (p ++ [c]) f n) = lookup (p ++ d :: q) n.
Proof.
  intros Hcd. rewrite update_app, !lookup_app, lookup_update_same.
  destruct (lookup p n) as [m|]; simpl; [|reflexivity].
  destruct m as [x|es]; simpl; [reflexivity|].
  rewrite find_upd_entry_other by assumption. reflexivity.
Qed.

Lemma update_at p f g n m :
  lookup p n = Some m -> f m = g m -> update p f n = update p g n.
Proof.
  revert n. induction p as [|c p IH]; intros n; simpl.
  - intros H; inversion H; subst; auto.
  - destruct n as [d|es]; [discriminate|]. intros H Hfg. f_equal.
    induction es as [|[k v] r IHr]; simpl in *; [discriminate|].
    destruct (k =? c).
    + f_equal. f_equal. apply IH; assumption.
    + f_equal. apply IHr; assumption.
Qed.

Lemma update_id p f n m :
  lookup p n = Some m -> f m = m -> update p f n = n.
Proof.
  revert n. induction p as [|c p IH]; intros n; simpl.
  - intros H; inversion H; subst; auto.
  - destruct n as [d|es]; [discriminate|]. intros H Hfg. f_equal.
    induction es as [|[k v] r IHr]; simpl in *; [discriminate|].
    destruct (k =? c).
    + f_equal. f_equal. apply IH; assumption.
    + f_equal. apply IHr; assumption.
Qed.

(** ** Entries of one directory *)

Lemma prune_entries_live es :
  prune_entries es = map (fun e => (fst e, prune (snd e))) (live es).
Proof.
  induction es as [|[k v] r IH]; simpl; [reflexivity|].
  destruct (is_pycache_dir (k, v)); simpl; rewrite IH; reflexivity.
Qed.

Lemma walk_children_live root es :
  walk_children root es =
  flat_map (fun e => if is_dir (snd e)
                     then walk_events (root ++ [fst e]) (snd e) else [])
           (live es).
Proof.
  induction es as [|[k v] r IH]; simpl; [reflexivity|].
  destruct (is_pycache_dir (k, v)); simpl; rewrite IH; reflexivity.
Qed.

Lemma in_dir_names d es :
  In d (dir_names es) <-> exists v, In (d, v) es /\ is_dir v = true.
Proof.
  unfold dir_names. rewrite in_map_iff. split.
  - intros [[k v] [Hk Hin]]. simpl in Hk. subst k.
    apply filter_In in Hin. exists v. exact Hin.
  - intros [v [Hin Hd]]. exists (d, v). split; [reflexivity|].
    apply filter_In. split; assumption.
Qed.

Lemma find_entry_in d v es :
  nodupb (map fst es) = true -> In (d, v) es -> find_entry d es = Some v.
Proof.
  induction es as [|[k w] r IH]; simpl; [tauto|].
  rewrite andb_true_iff, negb_true_iff, mem_false_iff.
  intros [Hk Hr] [Heq|Hin].
  - inversion Heq; subst. rewrite String.eqb_refl. reflexivity.
  - destruct (k =? d) eqn:E.
    + apply String.eqb_eq in E. subst k. exfalso. apply Hk.
      apply in_map_iff. exists (d, v). split; [reflexivity | assumption].
    + apply IH; assumption.
Qed.

Lemma find_entry_some d v es : find_entry d es = Some v -> In (d, v) es.
Proof.
  induction es as [|[k w] r IH]; simpl; [discriminate|].
  destruct (k =? d) eqn:E.
  - apply String.eqb_eq in E. intros H; inversion H; subst. left; reflexivity.
  - intros H. right. apply IH, H.
Qed.

Lemma find_entry_none d es : find_entry d es = None <-> ~ In d (map fst es).
Proof.
  induction es as [|[k w] r IH]; simpl; [tauto|].
  destruct (k =? d) eqn:E.
  - apply String.eqb_eq in E. split; [discriminate | intros H; exfalso; apply H; left; exact E].
  - apply String.eqb_neq in E. rewrite IH. tauto.
Qed.

Lemma nodupb_filter_fst (g : string * Node -> bool) es :
  nodupb (map fst es) = true -> nodupb (map fst (filter g es)) = true.
Proof.
  rewrite !nodupb_NoDup. induction es as [|[k w] r IH]; simpl; [auto|].
  intros H. inversion H as [|? ? Hk Hr]; subst.
  destruct (g (k, w)); simpl; [|auto].
  constructor; [|auto]. intros Hin. apply Hk.
  apply in_map_iff in Hin. destruct Hin as [e [He Hin]].
  apply filter_In in Hin. apply in_map_iff. exists e. tauto.
Qed.

Lemma wf_entries_filter (g : string * Node -> bool) es :
  wf_entries es = true -> wf_entries (filter g es) = true.
Proof.
  induction es as [|[k w] r IH]; simpl; [auto|].
  rewrite andb_true_iff. intros [H1 H2].
  destruct (g (k, w)); simpl; [rewrite H1; simpl|]; auto.
Qed.

Lemma wf_entries_in d v es : wf_entries es = true -> In (d, v) es -> wf v = true.
Proof.
  induction es as [|[k w] r IH]; simpl; [tauto|].
  rewrite andb_true_iff. intros [H1 H2] [Heq|Hin]; [inversion Heq; subst; assumption | auto].
Qed.

Lemma height_entries_in d v es : In (d, v) es -> height v <= height_entries es.
Proof.
  induction es as [|[k w] r IH]; simpl; [tauto|].
  intros [Heq|Hin]; [inversion Heq; subst; lia | specialize (IH Hin); lia].
Qed.

Lemma live_no_pycache es : mem pycache (dir_names (live es)) = false.
Proof.
  apply mem_false_iff. intros Hin. apply in_dir_names in Hin.
  destruct Hin as [v [Hin Hd]]. apply filter_In in Hin. destruct Hin as [_ Hn].
  unfold is_pycache_dir in Hn. cbn [fst snd] in Hn.
  rewrite Hd, String.eqb_refl in Hn. discriminate.
Qed.

Lemma live_id es : mem pycache (dir_names es) = false -> live es = es.
Proof.
  induction es as [|[k v] r IH]; simpl; [reflexivity|].
  unfold dir_names, is_pycache_dir. simpl.
  destruct (is_dir v); simpl.
  - rewrite orb_false_iff. intros [Hk Hr]. rewrite Hk. simpl. f_equal. apply IH, Hr.
  - rewrite andb_false_r. simpl. intros Hr. f_equal. apply IH, Hr.
Qed.

Lemma remove_child_notin c es : ~ In c (map fst es) -> remove_child c es = es.
Proof.
  induction es as [|[k v] r IH]; simpl; [reflexivity|].
  intros H. destruct (k =? c) eqn:E.
  - apply String.eqb_eq in E. tauto.
  - simpl. f_equal. apply IH. tauto.
Qed.

Lemma live_remove_child es :
  nodupb (map fst es) = true -> mem pycache (dir_names es) = true ->
  remove_child pycache es = live es.
Proof.
  induction es as [|[k v] r IH]; simpl; [discriminate|].
  rewrite andb_true_iff, negb_true_iff, mem_false_iff. intros [Hk Hr].
  unfold dir_names, is_pycache_dir. simpl.
  destruct (k =? pycache) eqn:E; simpl.
  - apply String.eqb_eq in E. subst k. rewrite (remove_child_notin _ _ Hk).
    destruct (is_dir v) eqn:Ev; simpl.
    + intros _. symmetry. apply live_id. apply mem_false_iff.
      intros Hin. apply in_dir_names in Hin. destruct Hin as [w [Hin _]].
      apply Hk. apply in_map_iff. exists (pycache, w). tauto.
    + intros Hm. exfalso. apply mem_true_iff in Hm. apply in_dir_names in Hm.
      destruct Hm as [w [Hin _]]. apply Hk. apply in_map_iff. exists (pycache, w). tauto.
  - destruct (is_dir v); simpl; [rewrite E; simpl|]; intros Hm; f_equal; apply IH; assumption.
Qed.

Lemma find_pycache_dir es :
  nodupb (map fst es) = true -> mem pycache (dir_names es) = true ->
  exists x, find_entry pycache es = Some (Dir x).
Proof.
  intros Hnd Hm. apply mem_true_iff, in_dir_names in Hm.
  destruct Hm as [v [Hin Hd]]. destruct v as [d|x]; [discriminate|].
  exists x. apply find_entry_in; assumption.
Qed.

Lemma list_remove_dir_names es :
  nodupb (map fst es) = true -> mem pycache (dir_names es) = true ->
  list_remove pycache (dir_names es) = Some (dir_names (live es)).
Proof.
  induction es as [|[k v] r IH]; simpl; [discriminate|].
  rewrite andb_true_iff, negb_true_iff, mem_false_iff. intros [Hk Hr].
  unfold dir_names, is_pycache_dir in *. simpl.
  destruct (is_dir v) eqn:Ev; simpl.
  - destruct (k =? pycache) eqn:E; simpl.
    + intros _. apply String.eqb_eq in E. subst k. f_equal.
      fold (live r). rewrite live_id; [reflexivity|].
      apply mem_false_iff. intros Hin. apply in_dir_names in Hin.
      destruct Hin as [w [Hin _]]. apply Hk. apply in_map_iff. exists (pycache, w). tauto.
    + intros Hm. rewrite (IH Hr Hm). rewrite Ev. reflexivity.
  - rewrite andb_false_r. simpl. rewrite Ev. intros Hm. apply (IH Hr Hm).
Qed.

Lemma nodupb_dir_names es :
  nodupb (map fst es) = true -> nodupb (dir_names es) = true.
Proof. apply nodupb_filter_fst. Qed.

(** ** Running the primitives *)

Lemma py_print_run line s : py_print line s = (Ret tt, s, [EvPrint line]).
Proof. reflexivity. Qed.

Lemma os_path_exists_run p s :
  os_path_exists p s =
  (Ret (match lookup p (cwd s) with Some _ => true | None => false end), s, []).
Proof. reflexivity. Qed.

Lemma shutil_rmtree_dir p s x :
  lookup p (cwd s) = Some (Dir x) ->
  shutil_rmtree p s = (Ret tt, mkSys (unlink p (cwd s)) (site s) (depth_limit s), [EvRmtree p]).
Proof.
  intros H. unfold shutil_rmtree, bind, get_sys. cbv beta iota. rewrite H. reflexivity.
Qed.

Lemma shutil_rmtree_file p s d :
  lookup p (cwd s) = Some (File d) ->
  shutil_rmtree p s = (Raise (NotADirectoryError p), s, []).
Proof.
  intros H. unfold shutil_rmtree, bind, get_sys. cbv beta iota. rewrite H. reflexivity.
Qed.

Lemma shutil_rmtree_missing p s :
  lookup p (cwd s) = None ->
  shutil_rmtree p s = (Raise (FileNotFoundError p), s, []).
Proof.
  intros H. unfold shutil_rmtree, bind, get_sys. cbv beta iota. rewrite H. reflexivity.
Qed.

Lemma scandir_run top s :
  scandir top s =
  (Ret (match lookup top (cwd s) with
        | Some (Dir es) => Some (dir_names es, file_names es)
        | _ => None
        end), s, []).
Proof. reflexivity. Qed.

Lemma bind_run {A B} (m : M A) (f : A -> M B) s :
  bind m f s =
  match m s with
  | (Ret a, s1, t1) => match f a s1 with (o, s2, t2) => (o, s2, t1 ++ t2) end
  | (Raise e, s1, t1) => (Raise e, s1, t1)
  end.
Proof. reflexivity. Qed.

(** ** Running the loops of [clean_build] *)

Lemma remove_pycache_skip root copy dirs s :
  mem pycache copy = false ->
  remove_pycache root copy dirs s = (Ret dirs, s, []).
Proof.
  revert dirs. induction copy as [|x r IH]; intros dirs; simpl; [reflexivity|].
  rewrite orb_false_iff. intros [Hx Hr].
  change "__pycache__" with pycache. rewrite Hx. apply IH, Hr.
Qed.

Lemma remove_pycache_hit root copy dirs dirs' s x :
  nodupb copy = true ->
  mem pycache copy = true ->
  lookup (root ++ [pycache]) (cwd s) = Some (Dir x) ->
  list_remove pycache dirs = Some dirs' ->
  remove_pycache root copy dirs s =
  (Ret dirs', mkSys (unlink (root ++ [pycache]) (cwd s)) (site s) (depth_limit s),
   [EvPrint ("Removing: " ++ walk_path_str (root ++ [pycache]));
    EvRmtree (root ++ [pycache])]).
Proof.
  intros Hnd Hm Hl Hrm. induction copy as [|c r IH]; simpl in *; [discriminate|].
  apply andb_true_iff in Hnd. destruct Hnd as [Hc Hr].
  change "__pycache__" with pycache.
  destruct (c =? pycache) eqn:E.
  - apply String.eqb_eq in E. subst c. apply negb_true_iff in Hc.
    rewrite bind_run, py_print_run. rewrite bind_run, (shutil_rmtree_dir _ _ _ Hl).
    rewrite Hrm, (remove_pycache_skip _ _ _ _ Hc). reflexivity.
  - simpl in Hm. apply IH; assumption.
Qed.

Lemma clean_walk_body_run top es fs st lim :
  nodupb (map fst es) = true ->
  lookup top fs = Some (Dir es) ->
  exists t,
    clean_walk_body top (dir_names es) (file_names es) (mkSys fs st lim) =
    (Ret (dir_names (live es)),
     mkSys (update top (fun _ => Dir (live es)) fs) st lim, t) /\
    t = if mem pycache (dir_names es)
        then [EvPrint ("Removing: " ++ walk_path_str (top ++ [pycache]));
              EvRmtree (top ++ [pycache])]
        else [].
Proof.
  intros Hnd Hl. unfold clean_walk_body.
  destruct (mem pycache (dir_names es)) eqn:Hm.
  - destruct (find_pycache_dir _ Hnd Hm) as [x Hx].
    eexists. split; [|reflexivity].
    rewrite (remove_pycache_hit top _ _ (dir_names (live es)) _ x).
    + simpl. rewrite unlink_snoc. f_equal. f_equal. f_equal.
      apply (update_at _ _ _ _ _ Hl). simpl.
      rewrite live_remove_child by assumption. reflexivity.
    + apply nodupb_dir_names, Hnd.
    + exact Hm.
    + simpl. rewrite lookup_app, Hl. simpl. rewrite Hx. reflexivity.
    + apply list_remove_dir_names; assumption.
  - eexists. split; [|reflexivity].
    rewrite remove_pycache_skip by assumption.
    rewrite (live_id _ Hm). f_equal. f_equal.
    rewrite (update_id _ _ _ _ Hl); reflexivity.
Qed.

(** ** The walk *)

Lemma os_walk_from_S fuel body top :
  os_walk_from (S fuel) body top =
  (sc <- scandir top ;;
   match sc with
   | None => ret tt
   | Some (dirs, files) =>
       dirs' <- body top dirs files ;;
       for_each dirs' (fun dirname => os_walk_from fuel body (top ++ [dirname]))
   end).
Proof. reflexivity. Qed.

(** ** Pruned trees *)

Lemma is_dir_prune n : is_dir (prune n) = is_dir n.
Proof. destruct n; reflexivity. Qed.

Lemma is_pycache_dir_prune k v : is_pycache_dir (k, prune v) = is_pycache_dir (k, v).
Proof. unfold is_pycache_dir. simpl. rewrite is_dir_prune. reflexivity. Qed.

Lemma prune_entries_no_pycache es : mem pycache (dir_names (prune_entries es)) = false.
Proof.
  apply mem_false_iff. intros Hin. apply in_dir_names in Hin.
  destruct Hin as [v [Hin Hd]]. rewrite prune_entries_live in Hin.
  apply in_map_iff in Hin. destruct Hin as [[k w] [He Hin]].
  simpl in He. inversion He; subst. apply filter_In in Hin. destruct Hin as [_ Hn].
  rewrite is_dir_prune in Hd.
  unfold is_pycache_dir in Hn. cbn [fst snd] in Hn.
  rewrite Hd, String.eqb_refl in Hn. discriminate.
Qed.

Lemma map_fst_prune_entries es : map fst (prune_entries es) = map fst (live es).
Proof. rewrite prune_entries_live, map_map. reflexivity. Qed.

Lemma wf_drop_child c n : wf n = true -> wf (drop_child c n) = true.
Proof.
  destruct n as [d|es]; [auto|]. simpl drop_child.
  rewrite !wf_Dir, !andb_true_iff. intros [Hnd Hwe]. split.
  - apply nodupb_filter_fst, Hnd.
  - apply wf_entries_filter, Hwe.
Qed.


Lemma find_remove_child c d es :
  find_entry c (remove_child d es) = if c =? d then None else find_entry c es.
Proof.
  induction es as [|[k v] r IH]; simpl; [destruct (c =? d); reflexivity|].
  destruct (k =? d) eqn:Ekd; simpl.
  - rewrite IH. destruct (c =? d) eqn:Ecd; [reflexivity|].
    destruct (k =? c) eqn:Ekc; [|reflexivity].
    apply String.eqb_eq in Ekd, Ekc. subst. rewrite String.eqb_refl in Ecd. discriminate.
  - destruct (k =? c) eqn:Ekc.
    + apply String.eqb_eq in Ekc. subst. rewrite Ekd. reflexivity.
    + apply IH.
Qed.

Lemma lookup_drop_child c p d n :
  lookup (c :: p) (drop_child d n) = if c =? d then None else lookup (c :: p) n.
Proof.
  destruct n as [x|es]; simpl; [destruct (c =? d); reflexivity|].
  rewrite find_remove_child. destruct (c =? d); reflexivity.
Qed.

Lemma lookup_drop_all c p names n :
  lookup (c :: p) (drop_all names n) = if mem c names then None else lookup (c :: p) n.
Proof.
  revert n. induction names as [|d r IH]; intros n; [reflexivity|].
  cbn [drop_all fold_left mem]. fold (drop_all r (drop_child d n)).
  rewrite IH, lookup_drop_child. rewrite (String.eqb_sym d c).
  destruct (c =? d); simpl; [destruct (mem c r); reflexivity | reflexivity].
Qed.

(** ** The first loop of [clean_build] *)

Lemma clean_dir_run d s :
  clean_dir d s =
  match lookup [d] (cwd s) with
  | None => (Ret tt, s, [])
  | Some (File _) =>
      (Raise (NotADirectoryError [d]), s, [EvPrint ("Removing directory: " ++ d)])
  | Some (Dir _) =>
      (Ret tt, mkSys (drop_child d (cwd s)) (site s) (depth_limit s),
       [EvPrint ("Removing directory: " ++ d); EvRmtree [d]])
  end.
Proof.
  unfold clean_dir. rewrite bind_run, os_path_exists_run.
  destruct (lookup [d] (cwd s)) as [[x|es]|] eqn:E.
  - rewrite bind_run, py_print_run, (shutil_rmtree_file _ _ _ E). reflexivity.
  - rewrite bind_run, py_print_run, (shutil_rmtree_dir _ _ _ E). reflexivity.
  - reflexivity.
Qed.




(** Running the loop again on the state it left: same outcome, same state,
    nothing deleted. *)
Lemma clean_dirs_twice names : forall s o s1 t,
  for_each names clean_dir s = (o, s1, t) ->
  (forall d, lookup [d] (cwd s) = None -> lookup [d] (cwd s1) = None) /\
  exists t',
    for_each names clean_dir s1 = (o, s1, t') /\
    rmtrees t' = [] /\
    (o = Ret tt -> t' = []).
Proof.
  induction names as [|d r IH]; intros s o s1 t.
  - cbn [for_each]. unfold ret. intros H. inversion H; subst.
    split; [auto|]. exists []. auto.
  - cbn [for_each]. rewrite bind_run, clean_dir_run.
    destruct (lookup [d] (cwd s)) as [[x|es]|] eqn:E.
    + intros H. inversion H; subst. split; [auto|].
      eexists. rewrite bind_run, clean_dir_run, E.
      split; [reflexivity|]. split; [reflexivity | discriminate].
    + destruct (for_each r clean_dir (mkSys (drop_child d (cwd s)) (site s) (depth_limit s)))
        as [[o' s'] t'] eqn:Er.
      intros H. inversion H; subst. clear H.
      destruct (IH _ _ _ _ Er) as [Hkeep [t2 [Hrun [Hrm Hret]]]].
      cbn [cwd] in Hkeep.
      assert (Hd : lookup [d] (cwd s1) = None).
      { apply Hkeep. rewrite lookup_drop_child, String.eqb_refl. reflexivity. }
      split.
      * intros d' Hd'. apply Hkeep. rewrite lookup_drop_child.
        destruct (d' =? d); [reflexivity | exact Hd'].
      * exists t2. rewrite bind_run, clean_dir_run, Hd, Hrun. auto.
    + destruct (for_each r clean_dir s) as [[o' s'] t'] eqn:Er.
      intros H. inversion H; subst. clear H.
      destruct (IH _ _ _ _ Er) as [Hkeep [t2 [Hrun [Hrm Hret]]]].
      split; [exact Hkeep|].
      exists t2. rewrite bind_run, clean_dir_run, (Hkeep _ E), Hrun. auto.
Qed.

(** ** The walk, however deep it may go *)

Lemma upd_entry_app_mid c f pre v r :
  ~ In c (map fst pre) ->
  upd_entry c f (pre ++ (c, v) :: r) = pre ++ (c, f v) :: r.
Proof.
  induction pre as [|[k w] pre IH]; intros H; cbn [app upd_entry].
  - rewrite String.eqb_refl. reflexivity.
  - destruct (k =? c) eqn:E.
    + apply String.eqb_eq in E. subst k. exfalso. apply H. left. reflexivity.
    + rewrite IH; [reflexivity|]. intros Hin. apply H. right. exact Hin.
Qed.

Lemma find_entry_app_mid c pre v r :
  ~ In c (map fst pre) -> find_entry c (pre ++ (c, v) :: r) = Some v.
Proof.
  induction pre as [|[k w] pre IH]; intros H; cbn [app find_entry].
  - rewrite String.eqb_refl. reflexivity.
  - destruct (k =? c) eqn:E.
    + apply String.eqb_eq in E. subst k. exfalso. apply H. left. reflexivity.
    + apply IH. intros Hin. apply H. right. exact Hin.
Qed.

Lemma nodupb_app_mid pre k (v : Node) r :
  nodupb (map fst (pre ++ (k, v) :: r)) = true -> ~ In k (map fst pre).
Proof.
  rewrite nodupb_NoDup, map_app. cbn [map fst]. intros H Hin.
  apply NoDup_remove_2 in H. apply H, in_or_app. left. exact Hin.
Qed.

Lemma update_child top k g fs pre v r :
  lookup top fs = Some (Dir (pre ++ (k, v) :: r)) ->
  ~ In k (map fst pre) ->
  update (top ++ [k]) g fs = update top (fun _ => Dir (pre ++ (k, g v) :: r)) fs.
Proof.
  intros Hl Hk. rewrite update_app.
  apply (update_at top _ _ fs _ Hl). cbn [update].
  rewrite upd_entry_app_mid by assumption. reflexivity.
Qed.

Section SweepLoop.
Variables (fuel : nat) (top : Path) (st : list string) (lim : nat).
Hypothesis walk_run :
  forall d fs sub,
    wf sub = true -> lookup (top ++ [d]) fs = Some sub ->
    os_walk_from fuel clean_walk_body (top ++ [d]) (mkSys fs st lim) =
    (walk_outcome (finishes fuel sub),
     mkSys (update (top ++ [d]) (fun _ => swept fuel sub) fs) st lim,
     swept_events fuel (top ++ [d]) sub).

Lemma sweep_loop l : forall pre fs,
  lookup top fs = Some (Dir (pre ++ l)) ->
  nodupb (map fst (pre ++ l)) = true ->
  wf_entries l = true ->
  for_each (dir_names l) (fun d => os_walk_from fuel clean_walk_body (top ++ [d]))
           (mkSys fs st lim) =
  (walk_outcome (all_dirs (finishes fuel) l),
   mkSys (update top
            (fun _ => Dir (pre ++ sweep_entries (swept fuel) (finishes fuel) l)) fs)
         st lim,
   sweep_children (fun k v => swept_events fuel (top ++ [k]) v) (finishes fuel) l).
Proof.
  induction l as [|[k v] r IH]; intros pre fs Hl Hnd Hwe.
  - cbn [dir_names filter map for_each all_dirs sweep_entries sweep_children].
    rewrite (update_id top _ fs _ Hl) by reflexivity. reflexivity.
  - cbn [wf_entries] in Hwe. apply andb_true_iff in Hwe. destruct Hwe as [Hwv Hwr].
    pose proof (nodupb_app_mid _ _ _ _ Hnd) as Hk.
    assert (Hshift : pre ++ (k, v) :: r = (pre ++ [(k, v)]) ++ r)
      by (rewrite <- app_assoc; reflexivity).
    unfold dir_names. cbn [filter snd all_dirs sweep_entries sweep_children].
    destruct (is_dir v) eqn:Ev.
    + cbn [map fst for_each]. fold (dir_names r).
      assert (Hc : lookup (top ++ [k]) fs = Some v).
      { rewrite lookup_app, Hl. cbn [lookup].
        rewrite find_entry_app_mid by assumption. reflexivity. }
      rewrite bind_run, (walk_run k fs v Hwv Hc).
      rewrite (update_child top k _ fs pre v r Hl Hk).
      destruct (finishes fuel v) eqn:Ef; cbn [walk_outcome andb].
      * set (fs1 := update top (fun _ => Dir (pre ++ (k, swept fuel v) :: r)) fs).
        assert (Hl1 : lookup top fs1 = Some (Dir ((pre ++ [(k, swept fuel v)]) ++ r))).
        { unfold fs1. rewrite lookup_update_same, Hl, <- app_assoc. reflexivity. }
        rewrite (IH (pre ++ [(k, swept fuel v)]) fs1 Hl1); [|
          rewrite <- app_assoc; cbn [app]; rewrite map_app in *; exact Hnd | exact Hwr].
        unfold fs1. rewrite update_update, <- app_assoc. reflexivity.
      * rewrite app_nil_r. reflexivity.
    + fold (dir_names r). cbn [andb].
      rewrite Hshift in Hl, Hnd.
      rewrite (IH (pre ++ [(k, v)]) fs Hl Hnd Hwr), <- app_assoc. reflexivity.
Qed.
End SweepLoop.

Lemma wf_entries_live es : wf_entries es = true -> wf_entries (live es) = true.
Proof. apply wf_entries_filter. Qed.

(** The walk of [clean_build] from [top], whatever the levels it may go
    down. *)
Lemma os_walk_from_run fuel : forall top fs sub st lim,
  wf sub = true -> lookup top fs = Some sub ->
  os_walk_from fuel clean_walk_body top (mkSys fs st lim) =
  (walk_outcome (finishes fuel sub),
   mkSys (update top (fun _ => swept fuel sub) fs) st lim,
   swept_events fuel top sub).
Proof.
  induction fuel as [|fuel IH]; intros top fs sub st lim Hwf Hl.
  - cbn [os_walk_from finishes swept swept_events walk_outcome].
    rewrite (update_id top _ fs _ Hl) by reflexivity. reflexivity.
  - rewrite os_walk_from_S, bind_run, scandir_run. cbn [cwd]. rewrite Hl.
    destruct sub as [x|es].
    + cbn [finishes swept swept_events walk_outcome].
      rewrite (update_id top _ fs _ Hl) by reflexivity. reflexivity.
    + rewrite wf_Dir in Hwf. apply andb_true_iff in Hwf. destruct Hwf as [Hnd Hwe].
      destruct (clean_walk_body_run top es fs st lim Hnd Hl) as [t [Hbody Ht]].
      rewrite bind_run, Hbody.
      set (fs0 := update top (fun _ => Dir (live es)) fs).
      assert (Hl0 : lookup top fs0 = Some (Dir ([] ++ live es))).
      { unfold fs0. rewrite lookup_update_same, Hl. reflexivity. }
      rewrite (sweep_loop fuel top st lim (fun d fs' sub' => IH _ fs' sub' st lim)
                 (live es) [] fs0 Hl0);
        [| apply nodupb_filter_fst, Hnd | apply wf_entries_live, Hwe].
      unfold fs0. rewrite update_update, Ht.
      cbn [finishes swept swept_events app]. reflexivity.
Qed.

(** ** The tree a walk leaves *)

Lemma is_dir_swept fuel n : is_dir (swept fuel n) = is_dir n.
Proof. destruct fuel; [reflexivity|]. destruct n; reflexivity. Qed.

Lemma kind_swept fuel n : kind (swept fuel n) = kind n.
Proof. destruct fuel; [reflexivity|]. destruct n; reflexivity. Qed.

Lemma map_fst_sweep_entries w ok l : map fst (sweep_entries w ok l) = map fst l.
Proof.
  induction l as [|[k v] r IH]; [reflexivity|]. cbn [sweep_entries].
  destruct (is_dir v); [destruct (ok v)|]; cbn [map fst]; rewrite ?IH; reflexivity.
Qed.

Lemma wf_entries_sweep w ok l :
  (forall v, wf v = true -> wf (w v) = true) ->
  wf_entries l = true -> wf_entries (sweep_entries w ok l) = true.
Proof.
  intros Hw. induction l as [|[k v] r IH]; [reflexivity|].
  cbn [wf_entries sweep_entries]. rewrite andb_true_iff. intros [Hv Hr].
  destruct (is_dir v); [destruct (ok v)|]; cbn [wf_entries];
    rewrite ?(Hw v Hv), ?Hv, ?(IH Hr), ?Hr; reflexivity.
Qed.

Lemma wf_swept fuel : forall n, wf n = true -> wf (swept fuel n) = true.
Proof.
  induction fuel as [|fuel IH]; intros n Hwf; [exact Hwf|].
  destruct n as [x|es]; [exact Hwf|]. cbn [swept].
  rewrite wf_Dir in *. apply andb_true_iff in Hwf. destruct Hwf as [Hnd Hwe].
  rewrite map_fst_sweep_entries. apply andb_true_iff. split.
  - apply nodupb_filter_fst, Hnd.
  - apply wf_entries_sweep; [exact IH | apply wf_entries_live, Hwe].
Qed.

Lemma live_live es : live (live es) = live es.
Proof.
  induction es as [|[k v] r IH]; [reflexivity|]. cbn [live filter].
  destruct (negb (is_pycache_dir (k, v))) eqn:E; [|exact IH].
  cbn [filter]. rewrite E. f_equal. exact IH.
Qed.

Section SweepTwice.
Variables (w : Node -> Node) (ok : Node -> bool).
Hypothesis w_dir : forall v, is_dir (w v) = is_dir v.
Hypothesis w_w : forall v, w (w v) = w v.
Hypothesis ok_w : forall v, ok (w v) = ok v.

Lemma live_sweep_entries es :
  live (sweep_entries w ok (live es)) = sweep_entries w ok (live es).
Proof.
  induction es as [|[k v] r IH]; [reflexivity|]. cbn [live filter].
  destruct (negb (is_pycache_dir (k, v))) eqn:E; [|exact IH].
  fold (live r). cbn [sweep_entries].
  destruct (is_dir v) eqn:Ev.
  - assert (Ew : negb (is_pycache_dir (k, w v)) = true).
    { unfold is_pycache_dir in *. cbn [fst snd] in *. rewrite w_dir. exact E. }
    unfold live at 1. cbn [filter]. rewrite Ew. f_equal.
    destruct (ok v); [exact IH | apply live_live].
  - unfold live at 1. cbn [filter]. rewrite E. f_equal. exact IH.
Qed.

Lemma sweep_entries_twice l :
  sweep_entries w ok (sweep_entries w ok l) = sweep_entries w ok l.
Proof.
  induction l as [|[k v] r IH]; [reflexivity|]. cbn [sweep_entries].
  destruct (is_dir v) eqn:Ev.
  - cbn [sweep_entries]. rewrite w_dir, Ev, w_w, ok_w.
    destruct (ok v); [rewrite IH|]; reflexivity.
  - cbn [sweep_entries]. rewrite Ev, IH. reflexivity.
Qed.

Lemma all_dirs_sweep_entries l :
  all_dirs ok (sweep_entries w ok l) = all_dirs ok l.
Proof.
  induction l as [|[k v] r IH]; [reflexivity|]. cbn [sweep_entries all_dirs].
  destruct (is_dir v) eqn:Ev.
  - cbn [all_dirs]. rewrite w_dir, Ev, ok_w.
    destruct (ok v); [cbn [andb]; exact IH | reflexivity].
  - cbn [all_dirs]. rewrite Ev. cbn [andb]. exact IH.
Qed.

Lemma sweep_children_again (ev : string -> Node -> list Event) l :
  (forall k v, ev k (w v) = []) ->
  sweep_children ev ok (sweep_entries w ok l) = [].
Proof.
  intros Hev. induction l as [|[k v] r IH]; [reflexivity|]. cbn [sweep_entries].
  destruct (is_dir v) eqn:Ev.
  - cbn [sweep_children]. rewrite w_dir, Ev, Hev, ok_w. cbn [app].
    destruct (ok v); [exact IH | reflexivity].
  - cbn [sweep_children]. rewrite Ev. exact IH.
Qed.
End SweepTwice.

(** A second walk finds nothing to do: it ends as the first, leaves the
    tree as the first left it, and prints and deletes nothing. *)
Lemma swept_twice fuel : forall n,
  finishes fuel (swept fuel n) = finishes fuel n /\
  swept fuel (swept fuel n) = swept fuel n /\
  forall root, swept_events fuel root (swept fuel n) = [].
Proof.
  induction fuel as [|fuel IH]; intros n; [repeat split|].
  destruct n as [x|es]; [repeat split|].
  assert (Hd : forall v, is_dir (swept fuel v) = is_dir v) by (apply is_dir_swept).
  assert (Hw : forall v, swept fuel (swept fuel v) = swept fuel v) by (apply IH).
  assert (Hok : forall v, finishes fuel (swept fuel v) = finishes fuel v) by (apply IH).
  cbn [swept finishes swept_events].
  rewrite (live_sweep_entries _ _ Hd es).
  split; [apply (all_dirs_sweep_entries _ _ Hd Hok)|].
  split; [f_equal; apply (sweep_entries_twice _ _ Hd Hw Hok)|].
  intros root.
  rewrite <- (live_sweep_entries _ _ Hd es) at 1. rewrite live_no_pycache. cbn [app].
  apply (sweep_children_again _ _ Hd Hok). intros k v. apply IH.
Qed.

Lemma find_live c es :
  nodupb (map fst es) = true ->
  find_entry c (live es) =
  match find_entry c es with
  | Some v => if is_pycache_dir (c, v) then None else Some v
  | None => None
  end.
Proof.
  induction es as [|[k v] r IH]; [reflexivity|].
  cbn [map fst nodupb]. rewrite andb_true_iff, negb_true_iff, mem_false_iff.
  intros [Hk Hr]. cbn [live filter find_entry]. fold (live r).
  destruct (k =? c) eqn:E.
  - apply String.eqb_eq in E. subst k.
    destruct (is_pycache_dir (c, v)) eqn:Ep; cbn [negb].
    + rewrite (IH Hr). apply find_entry_none in Hk. rewrite Hk. reflexivity.
    + cbn [find_entry]. rewrite String.eqb_refl. reflexivity.
  - destruct (is_pycache_dir (k, v)); cbn [negb]; [apply IH, Hr|].
    cbn [find_entry]. rewrite E. apply IH, Hr.
Qed.

Lemma find_sweep_entries c w ok l :
  match find_entry c l with
  | Some v =>
      find_entry c (sweep_entries w ok l) = Some v \/
      find_entry c (sweep_entries w ok l) = Some (w v)
  | None => find_entry c (sweep_entries w ok l) = None
  end.
Proof.
  induction l as [|[k v] r IH]; [reflexivity|]. cbn [sweep_entries find_entry].
  destruct (k =? c) eqn:E.
  - destruct (is_dir v); cbn [find_entry]; rewrite E; auto.
  - destruct (is_dir v); [destruct (ok v)|]; cbn [find_entry]; rewrite E;
      try exact IH.
    destruct (find_entry c r); auto.
Qed.

(** A walk only removes, and only below directories named [__pycache__]. *)
Lemma entry_at_swept fuel : forall n p,
  wf n = true ->
  entry_at p (swept fuel n) = entry_at p n \/
  (in_pycache p n = true /\ entry_at p (swept fuel n) = None).
Proof.
  induction fuel as [|fuel IH]; intros n p Hwf; [left; reflexivity|].
  destruct n as [x|es]; [left; reflexivity|].
  destruct p as [|c p]; [left; reflexivity|].
  pose proof Hwf as Hwf'. rewrite wf_Dir in Hwf'. apply andb_true_iff in Hwf'.
  destruct Hwf' as [Hnd Hwe].
  unfold entry_at. cbn [swept lookup in_pycache].
  pose proof (find_sweep_entries c (swept fuel) (finishes fuel) (live es)) as Hs.
  rewrite (find_live c es Hnd) in Hs.
  destruct (find_entry c es) as [v|] eqn:E; [|rewrite Hs; left; reflexivity].
  destruct (is_pycache_dir (c, v)) eqn:Ep; [rewrite Hs; right; split; reflexivity|].
  cbn [orb]. destruct Hs as [Hs|Hs]; rewrite Hs; [left; reflexivity|].
  apply (IH v p). apply find_entry_some in E. eapply wf_entries_in; eassumption.
Qed.

Lemma lookup_swept_absent fuel n p :
  wf n = true -> lookup p n = None -> lookup p (swept fuel n) = None.
Proof.
  intros Hwf H. destruct (entry_at_swept fuel n p Hwf) as [He|[_ He]];
    unfold entry_at in He; rewrite ?H in He;
    destruct (lookup p (swept fuel n)); [discriminate | reflexivity | discriminate | reflexivity].
Qed.

(** Where the tree is no higher than the walk may go down, the walk gets
    through it, and leaves the tree without its [__pycache__]
    directories. *)
Lemma swept_within fuel : forall n,
  height n <= fuel -> 0 < fuel ->
  finishes fuel n = true /\
  swept fuel n = prune n /\
  forall root, swept_events fuel root n = walk_events root n.
Proof.
  induction fuel as [|fuel IH]; intros n Hh Hpos; [lia|].
  destruct n as [x|es]; [repeat split|].
  rewrite height_Dir in Hh. apply le_S_n in Hh.
  assert (Hall : forall k v, In (k, v) (live es) -> is_dir v = true ->
            finishes fuel v = true /\ swept fuel v = prune v /\
            forall root, swept_events fuel root v = walk_events root v).
  { intros k v Hin Hd. apply filter_In in Hin. destruct Hin as [Hin _].
    pose proof (height_entries_in _ _ _ Hin) as Hv.
    destruct v as [x|es']; [discriminate|]. rewrite height_Dir in Hv.
    apply IH; [rewrite height_Dir|]; lia. }
  assert (Hlist :
    all_dirs (finishes fuel) (live es) = true /\
    sweep_entries (swept fuel) (finishes fuel) (live es) =
      map (fun e => (fst e, prune (snd e))) (live es) /\
    forall root,
      sweep_children (fun k v => swept_events fuel (root ++ [k]) v)
                     (finishes fuel) (live es) =
      flat_map (fun e => if is_dir (snd e)
                         then walk_events (root ++ [fst e]) (snd e) else [])
               (live es)).
  { clear IH Hh. revert Hall. generalize (live es). intros l.
    induction l as [|[k v] r IHr]; intros Hall; [repeat split|].
    destruct IHr as [Hf [Hs He]].
    { intros k' v' Hin Hd. apply (Hall k' v'); [right; exact Hin | exact Hd]. }
    cbn [all_dirs sweep_entries sweep_children map flat_map fst snd].
    destruct (is_dir v) eqn:Ev.
    - destruct (Hall k v (or_introl eq_refl) Ev) as [Hfv [Hsv Hev]].
      rewrite Hfv, Hsv, Hf, Hs. split; [reflexivity|]. split; [reflexivity|].
      intros root. rewrite Hev, He. reflexivity.
    - rewrite Hf, Hs. destruct v as [x|es']; [|discriminate].
      split; [reflexivity|]. split; [reflexivity|].
      intros root. rewrite He. reflexivity. }
  destruct Hlist as [Hf [Hs He]].
  cbn [finishes swept swept_events].
  split; [exact Hf|]. split.
  - rewrite prune_Dir, prune_entries_live, Hs. reflexivity.
  - intros root. rewrite walk_events_Dir, walk_children_live, He. reflexivity.
Qed.

(** ** The walk of [clean_build] from the working directory *)

Lemma levels_Dir es : levels (Dir es) = S (levels_entries es).
Proof. reflexivity. Qed.

Lemma height_le_levels n : height n <= levels n.
Proof.
  induction n as [d|es IH] using Node_induction; [simpl; lia|].
  rewrite height_Dir, levels_Dir. apply le_n_S.
  induction es as [|[k v] r IHr]; [reflexivity|].
  inversion IH as [|? ? Hv Hr]; subst. cbn [height_entries levels_entries].
  simpl in Hv. specialize (IHr Hr). lia.
Qed.

Lemma levels_positive n : 0 < levels n.
Proof. destruct n; simpl; lia. Qed.




(** The walk on any tree. *)
Lemma os_walk_run fs st lim :
  wf fs = true ->
  os_walk clean_walk_body [] (mkSys fs st lim) =
  (walk_outcome (finishes lim fs), mkSys (swept lim fs) st lim,
   swept_events lim [] fs).
Proof.
  intros Hwf. unfold os_walk. rewrite bind_run. unfold get_sys.
  cbn [cwd depth_limit].
  rewrite (os_walk_from_run lim [] fs fs st lim Hwf eq_refl). reflexivity.
Qed.

(** Where the tree is no higher than the walk may go down. *)
Lemma os_walk_clean fs st lim :
  wf fs = true -> height fs <= lim -> 0 < lim ->
  os_walk clean_walk_body [] (mkSys fs st lim) =
  (Ret tt, mkSys (prune fs) st lim, walk_events [] fs).
Proof.
  intros Hwf Hh Hpos. rewrite (os_walk_run fs st lim Hwf).
  destruct (swept_within lim fs Hh Hpos) as [Hf [Hs He]].
  rewrite Hf, Hs, He. reflexivity.
Qed.

Lemma phase_run {A} ph (v : A -> option bool) (m : M A) s :
  phase ph v m s =
  match m s with
  | (Ret a, s1, t1) => (Ret a, s1, EvEnter ph :: t1 ++ [EvReturn ph (v a)])
  | (Raise e, s1, t1) => (Raise e, s1, EvEnter ph :: t1)
  end.
Proof.
  unfold phase. rewrite bind_run. unfold emit at 1. rewrite bind_run.
  destruct (m s) as [[[a|e] s1] t1]; [|reflexivity].
  rewrite bind_run. unfold emit, ret. simpl. reflexivity.
Qed.


(** A run of [clean_build] whose first loop got through. *)
Lemma clean_build_run s fs1 st1 lim1 t :
  wf fs1 = true ->
  for_each dirs_to_clean clean_dir s = (Ret tt, mkSys fs1 st1 lim1, t) ->
  clean_build s =
  (walk_outcome (finishes lim1 fs1), mkSys (swept lim1 fs1) st1 lim1,
   EvEnter Clean :: (t ++ swept_events lim1 [] fs1) ++
     (if finishes lim1 fs1 then [EvReturn Clean None] else [])).
Proof.
  intros Hwf E. unfold clean_build. rewrite phase_run, bind_run, E.
  rewrite (os_walk_run fs1 st1 lim1 Hwf).
  destruct (finishes lim1 fs1); cbn [walk_outcome]; rewrite ?app_nil_r; reflexivity.
Qed.

(** ** What a path names after the clean phase *)






Lemma in_pycache_drop_child c p d n :
  in_pycache (c :: p) (drop_child d n) =
  if c =? d then false else in_pycache (c :: p) n.
Proof.
  destruct n as [x|es]; [destruct (c =? d); reflexivity|].
  cbn [drop_child in_pycache]. rewrite find_remove_child.
  destruct (c =? d); reflexivity.
Qed.

Lemma in_pycache_drop_all c p names n :
  in_pycache (c :: p) (drop_all names n) =
  if mem c names then false else in_pycache (c :: p) n.
Proof.
  revert n. induction names as [|d r IH]; intros n; [reflexivity|].
  cbn [drop_all fold_left mem]. fold (drop_all r (drop_child d n)).
  rewrite IH, in_pycache_drop_child. rewrite (String.eqb_sym d c).
  destruct (c =? d); simpl; [destruct (mem c r); reflexivity | reflexivity].
Qed.

Lemma kind_drop_all names n : kind (drop_all names n) = kind n.
Proof.
  revert n. induction names as [|d r IH]; intros n; [reflexivity|].
  cbn [drop_all fold_left]. fold (drop_all r (drop_child d n)).
  rewrite IH. destruct n; reflexivity.
Qed.


Lemma in_pycache_iff p : forall n,
  in_pycache p n = true <->
  exists q r es, p = q ++ pycache :: r /\ lookup (q ++ [pycache]) n = Some (Dir es).
Proof.
  induction p as [|c p IH]; intros n.
  - simpl. split; [discriminate|]. intros [q [r [es [H _]]]]. destruct q; discriminate.
  - destruct n as [x|es].
    + simpl. split; [discriminate|]. intros [q [r [es [_ H]]]].
      destruct q; discriminate.
    + cbn [in_pycache]. destruct (find_entry c es) as [v|] eqn:E.
      * rewrite orb_true_iff, IH. unfold is_pycache_dir. cbn [fst snd].
        rewrite andb_true_iff, String.eqb_eq. split.
        -- intros [[Hc Hd]|[q [r [es' [Hp Hl]]]]].
           ++ subst c. destruct v as [x|es']; [discriminate|].
              exists [], p, es'. split; [reflexivity|]. simpl. rewrite E. reflexivity.
           ++ exists (c :: q), r, es'. split; [simpl; f_equal; exact Hp|].
              simpl. rewrite E. exact Hl.
        -- intros [q [r [es' [Hp Hl]]]]. destruct q as [|a q].
           ++ simpl in Hp. inversion Hp; subst. simpl in Hl. rewrite E in Hl.
              inversion Hl; subst. left. split; reflexivity.
           ++ simpl in Hp. inversion Hp; subst. simpl in Hl. rewrite E in Hl.
              right. exists q, r, es'. split; [reflexivity | exact Hl].
      * split; [discriminate|]. intros [q [r [es' [Hp Hl]]]].
        destruct q as [|a q]; simpl in Hp; inversion Hp; subst;
          simpl in Hl; rewrite E in Hl; discriminate.
Qed.

Lemma removedb_iff fs p : removedb fs p = true <-> to_remove fs p.
Proof.
  unfold to_remove. destruct p as [|c p].
  - simpl. split; [discriminate|].
    intros [[d [r [_ H]]]|[q [r [es [H _]]]]]; [discriminate | destruct q; discriminate].
  - unfold removedb. rewrite orb_true_iff, mem_true_iff, in_pycache_iff. split.
    + intros [H|H]; [left; exists c, p; auto | right; exact H].
    + intros [[d [r [Hin H]]]|H]; [inversion H; subst; left; exact Hin | right; exact H].
Qed.

(** ** What the clean phase deletes *)

Lemma rmtrees_app t1 t2 : rmtrees (t1 ++ t2) = rmtrees t1 ++ rmtrees t2.
Proof. apply flat_map_app. Qed.



Lemma clean_dirs_post names : forall s o s1 t,
  for_each names clean_dir s = (o, s1, t) ->
  (forall d, lookup [d] (cwd s) = None -> lookup [d] (cwd s1) = None) /\
  (wf (cwd s) = true -> wf (cwd s1) = true) /\
  (o = Ret tt -> forall d, In d names -> lookup [d] (cwd s1) = None).
Proof.
  induction names as [|d r IH]; intros s o s1 t.
  - cbn [for_each]. unfold ret. intros H. inversion H; subst.
    repeat split; auto. intros _ d [].
  - cbn [for_each]. rewrite bind_run, clean_dir_run.
    destruct (lookup [d] (cwd s)) as [[x|es]|] eqn:E.
    + intros H. inversion H; subst. repeat split; auto. discriminate.
    + destruct (for_each r clean_dir (mkSys (drop_child d (cwd s)) (site s) (depth_limit s)))
        as [[o' s'] t'] eqn:Er.
      intros H. inversion H; subst. clear H.
      destruct (IH _ _ _ _ Er) as [Hkeep [Hwf Hgone]]. cbn [cwd] in *.
      assert (Hd : lookup [d] (cwd s1) = None).
      { apply Hkeep. rewrite lookup_drop_child, String.eqb_refl. reflexivity. }
      repeat split.
      * intros d' Hd'. apply Hkeep. rewrite lookup_drop_child.
        destruct (d' =? d); [reflexivity | exact Hd'].
      * intros H. apply Hwf, wf_drop_child, H.
      * intros Ho d' [Heq|Hin]; [subst; exact Hd | apply Hgone; assumption].
    + destruct (for_each r clean_dir s) as [[o' s'] t'] eqn:Er.
      intros H. inversion H; subst. clear H.
      destruct (IH _ _ _ _ Er) as [Hkeep [Hwf Hgone]].
      repeat split; auto.
      intros Ho d' [Heq|Hin]; [subst; apply Hkeep, E | apply Hgone; assumption].
Qed.

Lemma clean_dirs_absent names : forall s,
  (forall d, In d names -> lookup [d] (cwd s) = None) ->
  for_each names clean_dir s = (Ret tt, s, []).
Proof.
  induction names as [|d r IH]; intros s H; [reflexivity|].
  cbn [for_each]. rewrite bind_run, clean_dir_run, (H d (or_introl eq_refl)).
  rewrite IH; [reflexivity|]. intros d' Hin. apply H. right. exact Hin.
Qed.




(** C6.  Running [clean_build] again on the state a first run left changes
    nothing: the state is the same, nothing is handed to [shutil.rmtree],
    and the outcome is that of the first run; after a first run that
    returned, the second prints nothing at all.  A name of [dirs_to_clean]
    that is not there is skipped without an error. *)
Theorem clean_build_idempotent s :
  wf (cwd s) = true ->
  let r1 := clean_build s in
  let r2 := clean_build (state_of r1) in
  state_of r2 = state_of r1 /\
  rmtrees (trace_of r2) = [] /\
  outcome_of r2 = outcome_of r1 /\
  (outcome_of r1 = Ret tt -> trace_of r2 = [EvEnter Clean; EvReturn Clean None]) /\
  (forall d, lookup [d] (cwd s) = None -> clean_dir d s = (Ret tt, s, [])).
Proof.
  intros Hwf r1 r2. subst r1 r2.
  assert (Hskip : forall d, lookup [d] (cwd s) = None -> clean_dir d s = (Ret tt, s, [])).
  { intros d H. rewrite clean_dir_run, H. reflexivity. }
  destruct (for_each dirs_to_clean clean_dir s) as [[o s1] t] eqn:E.
  destruct (clean_dirs_post _ _ _ _ _ E) as [_ [Hwf1 Hgone]].
  destruct (clean_dirs_twice _ _ _ _ _ E) as [_ [t' [Hrun [Hrm _]]]].
  specialize (Hwf1 Hwf).
  destruct o as [[]|e].
  - destruct s1 as [fs1 st1 lim1]. cbn [cwd] in *.
    pose proof (clean_build_run s fs1 st1 lim1 t Hwf1 E) as R1.
    destruct (swept_twice lim1 fs1) as [Hfin [Hsw Hev]].
    assert (R2 : clean_build (mkSys (swept lim1 fs1) st1 lim1) =
                 (walk_outcome (finishes lim1 fs1), mkSys (swept lim1 fs1) st1 lim1,
                  EvEnter Clean ::
                    (if finishes lim1 fs1 then [EvReturn Clean None] else []))).
    { rewrite (clean_build_run _ (swept lim1 fs1) st1 lim1 []).
      - rewrite Hfin, Hsw, Hev. reflexivity.
      - apply wf_swept, Hwf1.
      - apply clean_dirs_absent. intros d Hin. cbn [cwd].
        apply lookup_swept_absent; [exact Hwf1|]. apply (Hgone eq_refl d Hin). }
    rewrite R1. cbn [outcome_of state_of trace_of fst snd]. rewrite R2.
    cbn [outcome_of state_of trace_of fst snd].
    destruct (finishes lim1 fs1); cbn [walk_outcome];
      repeat split; auto; discriminate.
  - assert (R1 : clean_build s = (Raise e, s1, EvEnter Clean :: t)).
    { unfold clean_build. rewrite phase_run, bind_run, E. reflexivity. }
    assert (R2 : clean_build s1 = (Raise e, s1, EvEnter Clean :: t')).
    { unfold clean_build. rewrite phase_run, bind_run, Hrun. reflexivity. }
    rewrite R1. cbn [outcome_of state_of trace_of fst snd]. rewrite R2.
    cbn [outcome_of state_of trace_of fst snd]. repeat split; auto. discriminate.
Qed.

Lemma clean_build_idempotent_witness :
  let r1 := clean_build sample_sys in
  let r2 := clean_build (state_of r1) in
  state_of r2 = state_of r1 /\
  rmtrees (trace_of r2) = [] /\
  outcome_of r2 = outcome_of r1 /\
  (outcome_of r1 = Ret tt -> trace_of r2 = [EvEnter Clean; EvReturn Clean None]) /\
  (forall d, lookup [d] (cwd sample_sys) = None ->
             clean_dir d sample_sys = (Ret tt, sample_sys, [])).
Proof.
  apply (clean_build_idempotent sample_sys). reflexivity.
Defined.

(** ** Running the shell and the phases that use it *)

Section ScriptRuns.
Variable shell : string -> Sys -> Completed * Sys.
Variable load : string -> Sys -> Sys.

Lemma subprocess_run_run command s :
  subprocess_run shell command s =
  let r := fst (shell command s) in
  (if (returncode r =? 0)%Z then Ret r
   else Raise (CalledProcessError (returncode r) command (stderr r)),
   snd (shell command s), [EvSpawn command (returncode r)]).
Proof.
  unfold subprocess_run. rewrite bind_run. unfold get_sys.
  rewrite bind_run. unfold put_sys. rewrite bind_run. unfold emit.
  cbv zeta. destruct (returncode (fst (shell command s)) =? 0)%Z; reflexivity.
Qed.

Lemma str_CalledProcessError_examples :
  str_CalledProcessError 2 "make" =
    "Command 'make' returned non-zero exit status 2." /\
  str_CalledProcessError (-9) "make" =
    "Command 'make' died with <Signals.SIGKILL: 9>." /\
  str_CalledProcessError (-33) "make" =
    "Command 'make' died with unknown signal 33.".
Proof. repeat split. Qed.

Lemma run_command_run command description s :
  run_command shell command description s =
  (Ret (returncode (fst (shell command s)) =? 0)%Z,
   snd (shell command s),
   run_command_trace command description (fst (shell command s))).
Proof.
  unfold run_command, run_command_trace.
  rewrite bind_run, py_print_run.
  unfold try_except_CalledProcessError.
  rewrite bind_run, subprocess_run_run. cbv zeta.
  destruct (returncode (fst (shell command s)) =? 0)%Z.
  - rewrite bind_run.
    destruct (nonempty (stdout (fst (shell command s)))); reflexivity.
  - rewrite bind_run, py_print_run, bind_run.
    destruct (nonempty (stderr (fst (shell command s)))); reflexivity.
Qed.
End ScriptRuns.

(** ** Traces of the phases *)

Lemma phase_events_app t1 t2 :
  phase_events (t1 ++ t2) = phase_events t1 ++ phase_events t2.
Proof. apply filter_app. Qed.

Lemma calls_app t1 t2 : calls (t1 ++ t2) = calls t1 ++ calls t2.
Proof. apply flat_map_app. Qed.

Lemma spawns_app t1 t2 : spawns (t1 ++ t2) = spawns t1 ++ spawns t2.
Proof. apply flat_map_app. Qed.

Lemma imports_app t1 t2 : imports (t1 ++ t2) = imports t1 ++ imports t2.
Proof. apply flat_map_app. Qed.

Lemma phase_events_run_command c d r : phase_events (run_command_trace c d r) = [].
Proof.
  unfold run_command_trace. cbn [phase_events filter is_phase_event].
  destruct (returncode r =? 0)%Z.
  - destruct (nonempty (stdout r)); reflexivity.
  - destruct (nonempty (stderr r)); reflexivity.
Qed.

Lemma spawns_run_command c d r : spawns (run_command_trace c d r) = [(c, returncode r)].
Proof.
  unfold run_command_trace. cbn [spawns flat_map app].
  destruct (returncode r =? 0)%Z.
  - destruct (nonempty (stdout r)); reflexivity.
  - destruct (nonempty (stderr r)); reflexivity.
Qed.

Lemma imports_run_command c d r : imports (run_command_trace c d r) = [].
Proof.
  unfold run_command_trace. cbn [imports flat_map app].
  destruct (returncode r =? 0)%Z.
  - destruct (nonempty (stdout r)); reflexivity.
  - destruct (nonempty (stderr r)); reflexivity.
Qed.

Section PhaseRuns.
Variable shell : string -> Sys -> Completed * Sys.
Variable load : string -> Sys -> Sys.

Let sdist := "python setup.py sdist".
Let wheel := "python setup.py bdist_wheel".

Lemma build_package_run s :
  build_package shell s =
  let r1 := fst (shell sdist s) in
  let s1 := snd (shell sdist s) in
  let r2 := fst (shell wheel s1) in
  if (returncode r1 =? 0)%Z then
    (Ret (returncode r2 =? 0)%Z, snd (shell wheel s1),
     EvEnter Build ::
       (EvPrint "Building package..." ::
          run_command_trace sdist "Creating source distribution" r1 ++
          run_command_trace wheel "Creating wheel package" r2) ++
       [EvReturn Build (Some (returncode r2 =? 0)%Z)])
  else
    (Ret false, s1,
     EvEnter Build ::
       (EvPrint "Building package..." ::
          run_command_trace sdist "Creating source distribution" r1) ++
       [EvReturn Build (Some false)]).
Proof.
  unfold build_package. rewrite phase_run, bind_run, py_print_run.
  rewrite bind_run, run_command_run. fold sdist. cbv zeta.
  destruct (returncode (fst (shell sdist s)) =? 0)%Z; cbn [negb].
  - rewrite bind_run, run_command_run. fold wheel.
    destruct (returncode (fst (shell wheel (snd (shell sdist s)))) =? 0)%Z;
      cbn [negb]; unfold ret; cbn [app]; rewrite ?app_nil_r; reflexivity.
  - unfold ret. cbn [app]. rewrite ?app_nil_r. reflexivity.
Qed.

Lemma install_package_run s :
  install_package shell s =
  let r := fst (shell "pip install -e ." s) in
  (Ret (returncode r =? 0)%Z, snd (shell "pip install -e ." s),
   EvEnter Install ::
     (EvPrint "Installing package in development mode..." ::
        run_command_trace "pip install -e ." "Installing in development mode" r) ++
     [EvReturn Install (Some (returncode r =? 0)%Z)]).
Proof.
  unfold install_package. rewrite phase_run, bind_run, py_print_run.
  rewrite run_command_run. reflexivity.
Qed.

Lemma run_tests_run s :
  run_tests shell s =
  let r := fst (shell "python -m pytest tests/ -v" s) in
  (Ret (returncode r =? 0)%Z, snd (shell "python -m pytest tests/ -v" s),
   EvEnter RunTests ::
     (EvPrint "Running tests..." ::
        run_command_trace "python -m pytest tests/ -v" "Running tests" r) ++
     [EvReturn RunTests (Some (returncode r =? 0)%Z)]).
Proof.
  unfold run_tests. rewrite phase_run, bind_run, py_print_run.
  rewrite run_command_run. reflexivity.
Qed.

Lemma py_import_run name s :
  py_import load name s =
  (Ret (mem name (site s)),
   (if mem name (site s) then load name s else s),
   [EvImport name (mem name (site s))]).
Proof.
  unfold py_import. rewrite bind_run. unfold get_sys. cbv zeta.
  rewrite bind_run. unfold emit. rewrite bind_run.
  destruct (mem name (site s)); reflexivity.
Qed.

Lemma require_run name s :
  require shell load name s =
  if mem name (site s) then
    (Ret true, load name s,
     [EvImport name true; EvPrint ("✓ " ++ name ++ " installed")])
  else
    let r := fst (shell ("pip install " ++ name) s) in
    (Ret (returncode r =? 0)%Z, snd (shell ("pip install " ++ name) s),
     EvImport name false ::
       EvPrint ("✗ " ++ name ++ " not installed") ::
       EvPrint ("Installing " ++ name ++ "...") ::
       run_command_trace ("pip install " ++ name) ("Installing " ++ name) r).
Proof.
  unfold require. rewrite bind_run, py_import_run.
  destruct (mem name (site s)).
  - rewrite bind_run, py_print_run. reflexivity.
  - rewrite bind_run, py_print_run, bind_run, py_print_run, run_command_run.
    reflexivity.
Qed.

Lemma check_requirements_require :
  check_requirements shell load =
  phase CheckDeps Some
    (py_print "Checking dependencies..." ;;
     requests <- require shell load "requests" ;;
     if negb requests then ret false
     else
       aiohttp <- require shell load "aiohttp" ;;
       if negb aiohttp then ret false
       else ret true).
Proof. reflexivity. Qed.

Lemma check_requirements_run s :
  check_requirements shell load s =
  match require shell load "requests" s with
  | (Ret true, s1, t1) =>
      match require shell load "aiohttp" s1 with
      | (Ret b, s2, t2) =>
          (Ret b, s2,
           EvEnter CheckDeps ::
             (EvPrint "Checking dependencies..." :: t1 ++ t2) ++
             [EvReturn CheckDeps (Some b)])
      | (Raise e, s2, t2) =>
          (Raise e, s2, EvEnter CheckDeps :: EvPrint "Checking dependencies..." :: t1 ++ t2)
      end
  | (Ret false, s1, t1) =>
      (Ret false, s1,
       EvEnter CheckDeps ::
         (EvPrint "Checking dependencies..." :: t1) ++
         [EvReturn CheckDeps (Some false)])
  | (Raise e, s1, t1) =>
      (Raise e, s1, EvEnter CheckDeps :: EvPrint "Checking dependencies..." :: t1)
  end.
Proof.
  rewrite check_requirements_require.
  rewrite phase_run, bind_run, py_print_run, bind_run.
  destruct (require shell load "requests" s) as [[[[|]|e] s1] t1]; cbn [negb].
  - rewrite bind_run.
    destruct (require shell load "aiohttp" s1) as [[[[|]|e] s2] t2]; cbn [negb];
      unfold ret; cbn [app]; rewrite ?app_nil_r; reflexivity.
  - unfold ret. cbn [app]. rewrite ?app_nil_r. reflexivity.
  - reflexivity.
Qed.
End PhaseRuns.

Lemma phase_events_cons ev t :
  phase_events (ev :: t) = (if is_phase_event ev then [ev] else []) ++ phase_events t.
Proof. unfold phase_events. simpl. destruct (is_phase_event ev); reflexivity. Qed.

Lemma calls_cons ev t : calls (ev :: t) = call_of ev ++ calls t.
Proof. reflexivity. Qed.

Lemma spawns_cons ev t : spawns (ev :: t) = spawn_of ev ++ spawns t.
Proof. reflexivity. Qed.

Lemma imports_cons ev t : imports (ev :: t) = import_of ev ++ imports t.
Proof. reflexivity. Qed.

Lemma calls_phase_events t : calls (phase_events t) = calls t.
Proof.
  induction t as [|ev t IH]; [reflexivity|].
  rewrite phase_events_cons, calls_app, calls_cons, IH.
  destruct ev; reflexivity.
Qed.

Lemma calls_run_command c d r : calls (run_command_trace c d r) = [].
Proof. rewrite <- calls_phase_events, phase_events_run_command. reflexivity. Qed.

(** Brings a projection of a trace built from conses, appends and runs of
    commands to a list. *)
Ltac read_trace :=
  repeat (rewrite ?phase_events_app, ?calls_app, ?spawns_app, ?imports_app,
            ?phase_events_cons, ?calls_cons, ?spawns_cons, ?imports_cons,
            ?phase_events_run_command, ?calls_run_command,
            ?spawns_run_command, ?imports_run_command;
          cbn [is_phase_event call_of spawn_of import_of app
               phase_events calls spawns imports filter flat_map]).

(** Splits a membership in a list that is written out. *)
Ltac in_cases H :=
  simpl in H;
  repeat (destruct H as [H|H]; [inversion H; subst; clear H|]);
  try contradiction.

(** Settles, on written-out lists, the statements a run of
    [check_requirements] is checked against. *)
Ltac check_leaf :=
  repeat match goal with
    | |- _ /\ _ => split
    | |- _ <-> _ => split
    end;
  try solve
    [ eexists; reflexivity
    | left; eexists; reflexivity
    | right; do 2 eexists; reflexivity
    | intros; congruence
    | intros; repeat split; congruence
    | let H := fresh in
      intros ? ? H; in_cases H;
      first [ exists "requests"; repeat split; simpl; tauto
            | exists "aiohttp"; repeat split; simpl; tauto ]
    | let H := fresh in
      intros ? H; in_cases H; eexists; simpl; eauto
    | let H := fresh in let H' := fresh in
      intros ? ? H H'; in_cases H; in_cases H'
    | intros _; do 2 eexists; split; [simpl; eauto | assumption]
    | let H := fresh in
      intros [? [? [H ?]]]; in_cases H; congruence ].

Section ShellPhases.
Variable shell : string -> Sys -> Completed * Sys.
Variable load : string -> Sys -> Sys.

(** C4.  [build_package] runs the source-distribution build first.  When
    that fails it is the only command run and the result is [False];
    when it succeeds the wheel build runs next and its success is the
    result.  So the result is [True] only when both commands ran and
    both returned 0. *)
Theorem build_package_two_commands s :
  let sdist := "python setup.py sdist" in
  let wheel := "python setup.py bdist_wheel" in
  let r := build_package shell s in
  let rc1 := returncode (fst (shell sdist s)) in
  let rc2 := returncode (fst (shell wheel (snd (shell sdist s)))) in
  (rc1 <> 0%Z ->
     spawns (trace_of r) = [(sdist, rc1)] /\ outcome_of r = Ret false) /\
  (rc1 = 0%Z ->
     spawns (trace_of r) = [(sdist, 0%Z); (wheel, rc2)] /\
     outcome_of r = Ret (rc2 =? 0)%Z) /\
  (outcome_of r = Ret true <->
     spawns (trace_of r) = [(sdist, 0%Z); (wheel, 0%Z)]).
Proof.
  cbv zeta. rewrite build_package_run. cbv zeta.
  destruct (returncode (fst (shell "python setup.py sdist" s)) =? 0)%Z eqn:E1.
  - apply Z.eqb_eq in E1.
    cbn [outcome_of trace_of fst snd]. read_trace. rewrite !E1.
    split; [intros H; contradiction H; reflexivity|].
    split; [intros _; split; reflexivity|].
    split.
    + intros H. injection H as H. apply Z.eqb_eq in H. rewrite H. reflexivity.
    + intros H. injection H as H. rewrite H. reflexivity.
  - apply Z.eqb_neq in E1.
    cbn [outcome_of trace_of fst snd]. read_trace.
    split; [intros _; split; reflexivity|].
    split; [intros H; contradiction|].
    split; [discriminate|].
    intros H. inversion H.
Qed.

(** C3.  [check_requirements] looks for each of the two libraries, requests
    first and aiohttp second, by importing it, and runs the installer of a
    library exactly when that library was not found: [pip install requests]
    when requests is not importable on the machine it starts on, and
    [pip install aiohttp] when aiohttp is not importable on the machine the
    first library left.  It returns [False] when an installer it ran
    returned a code other than 0, without going on to the second library
    when that was the first installer, and [True] otherwise; with both
    libraries found no command is run and the result is [True].  The
    machine changes by the imports that succeed and the installers run. *)
Theorem check_requirements_installs_missing s :
  let r := check_requirements shell load s in
  let t := trace_of r in
  let pip1 := "pip install requests" in
  let pip2 := "pip install aiohttp" in
  let found1 := mem "requests" (site s) in
  let rc1 := returncode (fst (shell pip1 s)) in
  let ok1 := found1 || (rc1 =? 0)%Z in
  let s1 := if found1 then load "requests" s else snd (shell pip1 s) in
  let found2 := mem "aiohttp" (site s1) in
  let rc2 := returncode (fst (shell pip2 s1)) in
  let ok2 := found2 || (rc2 =? 0)%Z in
  let s2 := if found2 then load "aiohttp" s1 else snd (shell pip2 s1) in
  imports t = ("requests", found1) :: (if ok1 then [("aiohttp", found2)] else []) /\
  spawns t = (if found1 then [] else [(pip1, rc1)]) ++
             (if ok1 && negb found2 then [(pip2, rc2)] else []) /\
  outcome_of r = Ret (ok1 && ok2) /\
  state_of r = (if ok1 then s2 else s1) /\
  (found1 = true -> found2 = true -> spawns t = [] /\ outcome_of r = Ret true).
Proof.
  cbv zeta. rewrite check_requirements_run, require_run. cbv zeta. cbn [append].
  destruct (mem "requests" (site s)) eqn:Hreq; cbn [orb andb negb].
  - rewrite require_run. cbv zeta. cbn [append].
    destruct (mem "aiohttp" (site (load "requests" s))) eqn:Haio; cbn [orb andb negb].
    + cbn [outcome_of state_of trace_of fst snd]. read_trace.
      repeat split; try reflexivity; congruence.
    + cbn [outcome_of state_of trace_of fst snd]. read_trace.
      repeat split; try reflexivity; congruence.
  - destruct (returncode (fst (shell "pip install requests" s)) =? 0)%Z eqn:E1;
      cbn [orb andb negb].
    + rewrite require_run. cbv zeta. cbn [append].
      destruct (mem "aiohttp" (site (snd (shell "pip install requests" s)))) eqn:Haio;
        cbn [orb andb negb];
        cbn [outcome_of state_of trace_of fst snd]; read_trace;
        repeat split; try reflexivity; congruence.
    + cbn [outcome_of state_of trace_of fst snd]. read_trace.
      repeat split; try reflexivity; congruence.
Qed.

(** C9.  When requests cannot be imported and its installer fails,
    [check_requirements] returns [False] at once: requests is the only
    module it tried to import and its installer the only command run, so
    aiohttp is neither looked for nor installed. *)
Theorem check_requirements_stops_after_requests s :
  mem "requests" (site s) = false ->
  returncode (fst (shell "pip install requests" s)) <> 0%Z ->
  let r := check_requirements shell load s in
  outcome_of r = Ret false /\
  imports (trace_of r) = [("requests", false)] /\
  spawns (trace_of r) =
    [("pip install requests", returncode (fst (shell "pip install requests" s)))] /\
  state_of r = snd (shell "pip install requests" s).
Proof.
  intros Hreq Hrc. cbv zeta.
  rewrite check_requirements_run, require_run. cbv zeta. cbn [append].
  rewrite Hreq. apply Z.eqb_neq in Hrc. rewrite Hrc.
  cbn [outcome_of state_of trace_of fst snd]. read_trace.
  repeat split; reflexivity.
Qed.
End ShellPhases.

Lemma check_requirements_stops_after_requests_witness :
  let r := check_requirements offline_shell no_load sample_sys in
  outcome_of r = Ret false /\
  imports (trace_of r) = [("requests", false)] /\
  spawns (trace_of r) = [("pip install requests", 1%Z)] /\
  state_of r = sample_sys.
Proof.
  apply (check_requirements_stops_after_requests offline_shell no_load sample_sys).
  - reflexivity.
  - discriminate.
Defined.

(** ** Computations that call no phase *)

Lemma quiet_ret {A} (a : A) : quiet (ret a).
Proof. intros s. split; [reflexivity | discriminate]. Qed.

Lemma quiet_bind {A B} (m : M A) (f : A -> M B) :
  quiet m -> (forall a, quiet (f a)) -> quiet (bind m f).
Proof.
  intros Hm Hf s. rewrite bind_run. specialize (Hm s).
  destruct (m s) as [[[a|e] s1] t1]; cbn [outcome_of trace_of fst snd] in *.
  - specialize (Hf a s1). destruct (f a s1) as [[o s2] t2].
    cbn [outcome_of trace_of fst snd] in *.
    rewrite phase_events_app. destruct Hm as [Hm _], Hf as [Hf1 Hf2].
    rewrite Hm, Hf1. split; [reflexivity | exact Hf2].
  - destruct Hm as [Hm1 Hm2]. split; [exact Hm1|].
    intros c H. apply (Hm2 c). inversion H. reflexivity.
Qed.

Lemma quiet_print line : quiet (py_print line).
Proof. intros s. split; [reflexivity | discriminate]. Qed.

Lemma quiet_exists p : quiet (os_path_exists p).
Proof. intros s. split; [reflexivity | discriminate]. Qed.

Lemma quiet_scandir p : quiet (scandir p).
Proof. intros s. split; [reflexivity | discriminate]. Qed.

Lemma quiet_rmtree p : quiet (shutil_rmtree p).
Proof.
  intros s. destruct (lookup p (cwd s)) as [[x|es]|] eqn:E.
  - rewrite (shutil_rmtree_file _ _ _ E). split; [reflexivity | discriminate].
  - rewrite (shutil_rmtree_dir _ _ _ E). split; [reflexivity | discriminate].
  - rewrite (shutil_rmtree_missing _ _ E). split; [reflexivity | discriminate].
Qed.

Lemma quiet_for_each {A} (l : list A) body :
  (forall x, quiet (body x)) -> quiet (for_each l body).
Proof.
  intros H. induction l as [|x l IH]; [apply quiet_ret|].
  cbn [for_each]. apply quiet_bind; [apply H | intros _; exact IH].
Qed.

Lemma quiet_clean_dir d : quiet (clean_dir d).
Proof.
  unfold clean_dir. apply quiet_bind; [apply quiet_exists|].
  intros [|]; [|apply quiet_ret].
  apply quiet_bind; [apply quiet_print | intros _; apply quiet_rmtree].
Qed.

Lemma quiet_remove_pycache root copy : forall dirs, quiet (remove_pycache root copy dirs).
Proof.
  induction copy as [|c r IH]; intros dirs; [apply quiet_ret|].
  cbn [remove_pycache]. destruct (c =? "__pycache__"); [|apply IH].
  apply quiet_bind; [apply quiet_print | intros _].
  apply quiet_bind; [apply quiet_rmtree | intros _].
  destruct (list_remove c dirs); [apply IH|].
  intros s. split; [reflexivity | discriminate].
Qed.

Lemma quiet_os_walk_from fuel : forall top, quiet (os_walk_from fuel clean_walk_body top).
Proof.
  induction fuel as [|fuel IH]; intros top.
  - intros s. split; [reflexivity | discriminate].
  - rewrite os_walk_from_S. apply quiet_bind; [apply quiet_scandir|].
    intros [[dirs files]|]; [|apply quiet_ret].
    apply quiet_bind; [apply quiet_remove_pycache | intros dirs'].
    apply quiet_for_each. intros d. apply IH.
Qed.

Lemma quiet_os_walk top : quiet (os_walk clean_walk_body top).
Proof.
  unfold os_walk. apply quiet_bind.
  - intros s. split; [reflexivity | discriminate].
  - intros s. apply quiet_os_walk_from.
Qed.

(** ** One call of each phase *)

Lemma clean_build_call s :
  exists s' t,
    (clean_build s = (Ret tt, s', t) /\ phase_trace Clean (Some None) t) \/
    (exists e, clean_build s = (Raise e, s', t) /\ phase_trace Clean None t /\
               forall c, e <> SystemExit c).
Proof.
  unfold clean_build. rewrite phase_run.
  assert (Hq : quiet (for_each dirs_to_clean clean_dir ;; os_walk clean_walk_body [])).
  { apply quiet_bind; [apply quiet_for_each, quiet_clean_dir | intros _; apply quiet_os_walk]. }
  specialize (Hq s).
  destruct ((for_each dirs_to_clean clean_dir ;; os_walk clean_walk_body []) s)
    as [[[[]|e] s1] t1]; cbn [outcome_of trace_of fst snd] in Hq;
    destruct Hq as [Hq1 Hq2]; exists s1; eexists.
  - left. split; [reflexivity|]. exists t1. split; [exact Hq1 | reflexivity].
  - right. exists e. split; [reflexivity|]. split.
    + exists t1. split; [exact Hq1 | rewrite app_nil_r; reflexivity].
    + intros c H. apply (Hq2 c). rewrite H. reflexivity.
Qed.

Section PhaseCalls.
Variable shell : string -> Sys -> Completed * Sys.
Variable load : string -> Sys -> Sys.

Lemma build_package_call s :
  exists b s' t,
    build_package shell s = (Ret b, s', t) /\ phase_trace Build (Some (Some b)) t.
Proof.
  rewrite build_package_run. cbv zeta.
  destruct (returncode (fst (shell "python setup.py sdist" s)) =? 0)%Z;
    do 3 eexists; (split; [reflexivity|]); eexists;
    (split; [|reflexivity]); read_trace; reflexivity.
Qed.

Lemma install_package_call s :
  exists b s' t,
    install_package shell s = (Ret b, s', t) /\ phase_trace Install (Some (Some b)) t.
Proof.
  rewrite install_package_run. cbv zeta.
  do 3 eexists; (split; [reflexivity|]); eexists;
    (split; [|reflexivity]); read_trace; reflexivity.
Qed.

Lemma run_tests_call s :
  exists b s' t,
    run_tests shell s = (Ret b, s', t) /\ phase_trace RunTests (Some (Some b)) t.
Proof.
  rewrite run_tests_run. cbv zeta.
  do 3 eexists; (split; [reflexivity|]); eexists;
    (split; [|reflexivity]); read_trace; reflexivity.
Qed.

Lemma require_quiet name s :
  exists b s' t,
    require shell load name s = (Ret b, s', t) /\ phase_events t = [].
Proof.
  rewrite require_run. cbv zeta.
  destruct (mem name (site s)); do 3 eexists; (split; [reflexivity|]);
    read_trace; reflexivity.
Qed.

Lemma check_requirements_call s :
  exists b s' t,
    check_requirements shell load s = (Ret b, s', t) /\
    phase_trace CheckDeps (Some (Some b)) t.
Proof.
  rewrite check_requirements_run.
  destruct (require_quiet "requests" s) as [b1 [s1 [t1 [H1 Q1]]]]. rewrite H1.
  destruct b1.
  - destruct (require_quiet "aiohttp" s1) as [b2 [s2 [t2 [H2 Q2]]]]. rewrite H2.
    do 3 eexists. split; [reflexivity|]. eexists. split; [|reflexivity].
    read_trace. rewrite Q1, Q2. reflexivity.
  - do 3 eexists. split; [reflexivity|]. eexists. split; [|reflexivity].
    read_trace. exact Q1.
Qed.
End PhaseCalls.

(** ** Reading the trace of a run *)

Lemma phase_events_phase_trace ph r t :
  phase_trace ph r t ->
  phase_events t =
  EvEnter ph :: match r with Some v => [EvReturn ph v] | None => [] end.
Proof.
  intros [inner [Hq Ht]]. subst t.
  rewrite phase_events_cons, phase_events_app, Hq. destruct r; reflexivity.
Qed.

Lemma outside_quiet inner rest :
  phase_events inner = [] -> outside true (inner ++ rest) = outside true rest.
Proof.
  induction inner as [|ev inner IH]; intros H; [reflexivity|].
  rewrite phase_events_cons in H.
  destruct ev; cbn [is_phase_event app] in H; try discriminate;
    cbn [app outside]; apply IH, H.
Qed.

Lemma top_level_phase_trace ph v t rest :
  phase_trace ph (Some v) t -> top_level (t ++ rest) = top_level rest.
Proof.
  intros [inner [Hq Ht]]. subst t. unfold top_level.
  cbn [app outside]. rewrite <- app_assoc, (outside_quiet _ _ Hq). reflexivity.
Qed.

Lemma top_level_phase_raise ph t : phase_trace ph None t -> top_level t = [].
Proof.
  intros [inner [Hq Ht]]. subst t. unfold top_level.
  cbn [app outside]. rewrite (outside_quiet _ _ Hq). reflexivity.
Qed.

Lemma halts_on_failure_phase_events t :
  halts_on_failure (phase_events t) = halts_on_failure t.
Proof.
  induction t as [|ev t IH]; [reflexivity|].
  rewrite phase_events_cons.
  destruct ev as [l|p|m f|c rc|ph|ph [[|]|]];
    cbn [is_phase_event app halts_on_failure]; try exact IH.
  rewrite calls_phase_events. reflexivity.
Qed.

Lemma halts_on_failure_spec t :
  halts_on_failure t = true ->
  forall t1 p t2, t = t1 ++ EvReturn p (Some false) :: t2 -> calls t2 = [].
Proof.
  intros H t1. revert t H. induction t1 as [|ev t1 IH]; intros t H p t2 Ht; subst t.
  - cbn [app halts_on_failure] in H. destruct (calls t2); [reflexivity | discriminate].
  - cbn [app] in H.
    assert (Hcases : halts_on_failure (t1 ++ EvReturn p (Some false) :: t2) = true \/
                     calls (t1 ++ EvReturn p (Some false) :: t2) = []).
    { destruct ev as [l|q|m f|c rc|ph|ph [[|]|]]; cbn [halts_on_failure] in H;
        try (left; exact H).
      right. destruct (calls (t1 ++ EvReturn p (Some false) :: t2)); [reflexivity | discriminate]. }
    destruct Hcases as [Hh|Hc].
    + apply (IH _ Hh p t2 eq_refl).
    + rewrite calls_app in Hc. apply app_eq_nil in Hc. destruct Hc as [_ Hc].
      exact Hc.
Qed.

Lemma in_phase_events ev t :
  is_phase_event ev = true -> (In ev t <-> In ev (phase_events t)).
Proof.
  intros H. unfold phase_events. rewrite filter_In. tauto.
Qed.

(** ** [main] and [dispatch] unfolded *)

Section MainRuns.
Variable shell : string -> Sys -> Completed * Sys.
Variable load : string -> Sys -> Sys.

Lemma main_run argv s :
  main shell load argv s =
  match lookup ["setup.py"] (cwd s) with
  | Some _ =>
      match dispatch shell load argv s with
      | (o, s', t) => (o, s', banner ++ t)
      end
  | None =>
      (Raise (SystemExit 1), s, banner ++ marker_error)
  end.
Proof.
  unfold main.
  rewrite bind_run, py_print_run, bind_run, py_print_run, bind_run, os_path_exists_run.
  rewrite bind_run.
  destruct (lookup ["setup.py"] (cwd s)); cbn [negb].
  - unfold ret at 1. destruct (dispatch shell load argv s) as [[o s'] t]. reflexivity.
  - rewrite bind_run, py_print_run, bind_run, py_print_run. reflexivity.
Qed.

Lemma dispatch_clean script rest :
  dispatch shell load (script :: "clean" :: rest) = clean_build.
Proof. reflexivity. Qed.

Lemma dispatch_build script rest :
  dispatch shell load (script :: "build" :: rest) =
  (clean_build ;;
   ok <- check_requirements shell load ;;
   if ok then build_package shell ;; ret tt else ret tt).
Proof. reflexivity. Qed.

Lemma dispatch_install script rest :
  dispatch shell load (script :: "install" :: rest) =
  (ok <- check_requirements shell load ;;
   if ok then install_package shell ;; ret tt else ret tt).
Proof. reflexivity. Qed.

Lemma dispatch_test script rest :
  dispatch shell load (script :: "test" :: rest) =
  (ok <- check_requirements shell load ;;
   if ok then run_tests shell ;; ret tt else ret tt).
Proof. reflexivity. Qed.

Lemma dispatch_all script rest :
  dispatch shell load (script :: "all" :: rest) =
  (clean_build ;;
   ok <- check_requirements shell load ;;
   if ok then
     built <- build_package shell ;;
     if built then
       installed <- install_package shell ;;
       if installed then run_tests shell ;; ret tt else ret tt
     else ret tt
   else ret tt).
Proof. reflexivity. Qed.

Lemma dispatch_default script :
  dispatch shell load [script] =
  (clean_build ;;
   ok <- check_requirements shell load ;;
   if ok then
     built <- build_package shell ;;
     if built then
       py_print "\nBuild completed successfully!" ;;
       py_print "\nTo install run:" ;;
       py_print "python build.py install" ;;
       py_print "\nTo run tests:" ;;
       py_print "python build.py test"
     else ret tt
   else ret tt).
Proof. reflexivity. Qed.

Lemma dispatch_unknown script a rest :
  known_command a = false ->
  dispatch shell load (script :: a :: rest) =
  (py_print ("Unknown command: " ++ a) ;;
   py_print "Available commands: clean, build, install, test, all").
Proof.
  unfold known_command. cbn [existsb]. rewrite !orb_false_iff.
  intros [H1 [H2 [H3 [H4 [H5 _]]]]].
  unfold dispatch. cbn [length Nat.ltb Nat.leb nth].
  rewrite H1, H2, H3, H4, H5. reflexivity.
Qed.
End MainRuns.

(** ** The outcome of the dispatch *)

Section DispatchOutcome.
Variable shell : string -> Sys -> Completed * Sys.
Variable load : string -> Sys -> Sys.

(** Runs one phase call in the goal and names its result. *)
Ltac call lemma s :=
  let b := fresh "b" in let s' := fresh "s" in let t := fresh "t" in
  let Hrun := fresh "Hrun" in let Htr := fresh "Htr" in
  rewrite bind_run;
  destruct (lemma shell s) as [b [s' [t [Hrun Htr]]]]; rewrite Hrun.

Lemma after_check_outcome s (m : M bool) :
  (forall s0, exists b s' t, m s0 = (Ret b, s', t)) ->
  outcome_of ((ok <- check_requirements shell load ;; if ok then m ;; ret tt else ret tt) s)
  = Ret tt.
Proof.
  intros Hm. call (fun sh => check_requirements_call sh load) s. destruct b.
  - rewrite bind_run. destruct (Hm s0) as [b [s' [t' H]]]. rewrite H. reflexivity.
  - reflexivity.
Qed.

Lemma returns_build s0 : exists b s' t, build_package shell s0 = (Ret b, s', t).
Proof. destruct (build_package_call shell s0) as [b [s' [t [H _]]]]. eauto. Qed.

Lemma returns_install s0 : exists b s' t, install_package shell s0 = (Ret b, s', t).
Proof. destruct (install_package_call shell s0) as [b [s' [t [H _]]]]. eauto. Qed.

Lemma returns_tests s0 : exists b s' t, run_tests shell s0 = (Ret b, s', t).
Proof. destruct (run_tests_call shell s0) as [b [s' [t [H _]]]]. eauto. Qed.

Lemma after_clean_outcome s (k : M unit) :
  (forall s0, outcome_of (k s0) = Ret tt) ->
  outcome_of ((clean_build ;; k) s) = outcome_of (clean_build s).
Proof.
  intros Hk. rewrite bind_run.
  destruct (clean_build s) as [[[[]|e] s1] t1]; [|reflexivity].
  specialize (Hk s1). destruct (k s1) as [[o s2] t2]. exact Hk.
Qed.

Lemma dispatch_outcome argv s :
  outcome_of (dispatch shell load argv s) =
  if runs_clean argv then outcome_of (clean_build s) else Ret tt.
Proof.
  assert (Hall : forall s0,
    outcome_of ((ok <- check_requirements shell load ;;
                 if ok then
                   built <- build_package shell ;;
                   if built then
                     installed <- install_package shell ;;
                     if installed then run_tests shell ;; ret tt else ret tt
                   else ret tt
                 else ret tt) s0) = Ret tt).
  { intros s0. call (fun sh => check_requirements_call sh load) s0. destruct b; [|reflexivity].
    call build_package_call s1. destruct b; [|reflexivity].
    call install_package_call s2. destruct b; [|reflexivity].
    call run_tests_call s3. reflexivity. }
  assert (Hdef : forall s0,
    outcome_of ((ok <- check_requirements shell load ;;
                 if ok then
                   built <- build_package shell ;;
                   if built then
                     py_print "\nBuild completed successfully!" ;;
                     py_print "\nTo install run:" ;;
                     py_print "python build.py install" ;;
                     py_print "\nTo run tests:" ;;
                     py_print "python build.py test"
                   else ret tt
                 else ret tt) s0) = Ret tt).
  { intros s0. call (fun sh => check_requirements_call sh load) s0. destruct b; [|reflexivity].
    call build_package_call s1. destruct b; reflexivity. }
  destruct argv as [|script [|a rest]].
  - change (dispatch shell load []) with (dispatch shell load ["python"]).
    rewrite dispatch_default. cbn [runs_clean]. apply after_clean_outcome, Hdef.
  - rewrite dispatch_default. cbn [runs_clean]. apply after_clean_outcome, Hdef.
  - unfold dispatch. cbn [length Nat.ltb Nat.leb nth runs_clean existsb].
    destruct (a =? "clean") eqn:E1; [reflexivity|].
    destruct (a =? "build") eqn:E2.
    { cbn [orb]. apply after_clean_outcome. intros s0.
      apply after_check_outcome, returns_build. }
    destruct (a =? "install") eqn:E3.
    { apply String.eqb_eq in E3. subst a. cbn [orb String.eqb Ascii.eqb Bool.eqb].
      apply after_check_outcome, returns_install. }
    destruct (a =? "test") eqn:E4.
    { apply String.eqb_eq in E4. subst a. cbn [orb String.eqb Ascii.eqb Bool.eqb].
      apply after_check_outcome, returns_tests. }
    destruct (a =? "all") eqn:E5.
    { cbn [orb]. apply after_clean_outcome, Hall. }
    cbn [orb]. reflexivity.
Qed.
End DispatchOutcome.

(* ================================================================== *)
(** * The dispatcher                                                   *)
(* ================================================================== *)

(** C2.  The claim meets a defect of the code: with [setup.py] in place and
    a regular file named [build], the command [clean] announces the removal
    of [build] and hands it to [shutil.rmtree], which raises
    [NotADirectoryError]; nothing catches it, no shell command has run, and
    the exit status is 1, where the claim has 0. *)
Theorem exit_status_nonzero_with_marker
    (shell : string -> Sys -> Completed * Sys) (load : string -> Sys -> Sys) :
  let r := main shell load ["build.py"; "clean"] blocked_sys in
  has_marker blocked_sys = true /\
  lookup ["build"] (cwd blocked_sys) = Some (File "notes") /\
  r = (Raise (NotADirectoryError ["build"]), blocked_sys,
       banner ++ [EvEnter Clean; EvPrint "Removing directory: build"]) /\
  exit_status (outcome_of r) = 1%Z.
Proof. repeat split. Qed.

(** C8, as the specification states it, fails: in a working directory
    without [setup.py], an unknown command is not reported; [main] prints
    the error about [setup.py] and exits with status 1. *)
Lemma unknown_command_without_marker :
  let r := main offline_shell no_load ["build.py"; "deploy"] empty_sys in
  known_command "deploy" = false /\
  r = (Raise (SystemExit 1), empty_sys, banner ++ marker_error) /\
  ~ In (EvPrint "Unknown command: deploy") (trace_of r) /\
  exit_status (outcome_of r) = 1%Z.
Proof.
  cbv zeta. split; [reflexivity|]. split; [reflexivity|]. split; [|reflexivity].
  intros H. vm_compute in H.
  repeat (destruct H as [H|H]; [discriminate H|]). exact H.
Qed.

Section Dispatcher.
Variable shell : string -> Sys -> Completed * Sys.
Variable load : string -> Sys -> Sys.

(** C8, amended.  In a working directory that holds [setup.py], a first
    argument that is none of clean, build, install, test, all makes [main]
    print, after its banner, the unknown-command line and the list of the
    five commands, and return: no phase is called, no command is run, the
    machine is as it was, and the exit status is 0. *)
Theorem unknown_command_is_reported script a rest s :
  known_command a = false ->
  lookup ["setup.py"] (cwd s) <> None ->
  let r := main shell load (script :: a :: rest) s in
  r = (Ret tt, s,
       banner ++
       [EvPrint ("Unknown command: " ++ a);
        EvPrint "Available commands: clean, build, install, test, all"]) /\
  calls (trace_of r) = [] /\
  spawns (trace_of r) = [] /\
  exit_status (outcome_of r) = 0%Z.
Proof.
  intros Hk Hm. cbv zeta. rewrite main_run.
  destruct (lookup ["setup.py"] (cwd s)); [|contradiction Hm; reflexivity].
  rewrite (dispatch_unknown shell load script a rest Hk).
  rewrite bind_run, !py_print_run. repeat split; reflexivity.
Qed.

(** C10.  [main] reads nothing of the command line but its second entry,
    the first argument: two command lines with the same first argument
    give the same run (outcome, final state and trace) whatever follows
    it, and so do two command lines without any argument. *)
Theorem main_reads_first_argument_only script1 script2 a rest1 rest2 s :
  main shell load (script1 :: a :: rest1) s = main shell load (script2 :: a :: rest2) s /\
  main shell load [script1] s = main shell load [script2] s.
Proof. split; reflexivity. Qed.
End Dispatcher.

Lemma unknown_command_is_reported_witness :
  let r := main offline_shell no_load ["build.py"; "deploy"; "--force"] sample_sys in
  r = (Ret tt, sample_sys,
       banner ++
       [EvPrint ("Unknown command: " ++ "deploy");
        EvPrint "Available commands: clean, build, install, test, all"]) /\
  calls (trace_of r) = [] /\
  spawns (trace_of r) = [] /\
  exit_status (outcome_of r) = 0%Z.
Proof.
  apply (unknown_command_is_reported offline_shell no_load "build.py" "deploy" ["--force"] sample_sys).
  - reflexivity.
  - discriminate.
Defined.

(** ** The phases a run calls *)

Lemma result_of_phase_events ph t : result_of ph (phase_events t) = result_of ph t.
Proof.
  induction t as [|ev t IH]; [reflexivity|].
  rewrite phase_events_cons.
  destruct ev as [l|p|m f|c rc|q|q v]; cbn [is_phase_event app result_of];
    try exact IH.
  rewrite IH. reflexivity.
Qed.

Lemma short_circuit_phase_events row t :
  short_circuit row (phase_events t) = short_circuit row t.
Proof.
  induction row as [|ph row IH]; [reflexivity|].
  cbn [short_circuit]. rewrite result_of_phase_events, IH. reflexivity.
Qed.

Lemma row_facts (phs : list Phase) (t : list Event) (o : Outcome unit) pe :
  phase_events t = pe ->
  calls pe = short_circuit phs pe ->
  halts_on_failure pe = true ->
  (o = Ret tt -> (forall p, ~ In (EvReturn p (Some false)) pe) -> calls pe = phs) ->
  (In (EvReturn CheckDeps (Some false)) pe ->
   ~ In Build (calls pe) /\ ~ In Install (calls pe) /\ ~ In RunTests (calls pe)) ->
  calls t = short_circuit phs t /\
  (forall t1 p t2, t = t1 ++ EvReturn p (Some false) :: t2 -> calls t2 = []) /\
  (o = Ret tt -> (forall p, ~ In (EvReturn p (Some false)) t) -> calls t = phs) /\
  (In (EvReturn CheckDeps (Some false)) t ->
   ~ In Build (calls t) /\ ~ In Install (calls t) /\ ~ In RunTests (calls t)).
Proof.
  intros Hpe Hk Hh Hx Hc. subst pe.
  rewrite calls_phase_events, short_circuit_phase_events in *.
  rewrite halts_on_failure_phase_events in Hh.
  split; [exact Hk|]. split; [apply halts_on_failure_spec, Hh|]. split.
  - intros Ho Hno. apply Hx; [exact Ho|]. intros p Hin. apply (Hno p).
    apply (in_phase_events (EvReturn p (Some false)) t eq_refl), Hin.
  - intros H. apply Hc.
    apply (in_phase_events (EvReturn CheckDeps (Some false)) t eq_refl), H.
Qed.

(** Runs the next phase call in the goal and names its result. *)
Ltac call_phase shell lemma s :=
  let b := fresh "b" in let s' := fresh "s" in let t := fresh "t" in
  let Hrun := fresh "Hrun" in let Htr := fresh "Htr" in
  rewrite ?bind_run;
  destruct (lemma shell s) as [b [s' [t [Hrun Htr]]]]; rewrite Hrun.

Ltac call_clean s :=
  let s' := fresh "s" in let t := fresh "t" in let e := fresh "e" in
  let Hrun := fresh "Hrun" in let Htr := fresh "Htr" in let Hne := fresh "Hne" in
  rewrite ?bind_run;
  destruct (clean_build_call s) as [s' [t [[Hrun Htr]|[e [Hrun [Htr Hne]]]]]];
  rewrite Hrun.

(** Reads the phase events off a trace made of phase calls. *)
Ltac read_phases :=
  rewrite ?phase_events_app;
  repeat match goal with
    | H : phase_trace _ _ ?t |- _ =>
        rewrite (phase_events_phase_trace _ _ _ H); clear H
    end;
  cbn [banner phase_events filter is_phase_event app].

Ltac settle_particular :=
  let H := fresh in
  intros H; in_cases H;
  repeat split; let H' := fresh in intros H'; in_cases H'.

Ltac settle_complete :=
  let Ho := fresh in let Hno := fresh in
  intros Ho Hno;
  first [ reflexivity
        | discriminate Ho
        | exfalso; eapply Hno; simpl; eauto 20 ].

Ltac settle_row :=
  cbn [outcome_of trace_of fst snd ret];
  eapply row_facts;
  [ read_phases; reflexivity
  | reflexivity
  | reflexivity
  | settle_complete
  | settle_particular ].

Section Mapping.
Variable shell : string -> Sys -> Completed * Sys.
Variable load : string -> Sys -> Sys.

(** C1, amended.  In a working directory that holds [setup.py], [main]
    called with one of the five commands calls the phases of the command's
    row of the table, in the order of the row, up to the first that fails
    and no further: the phases called are the row cut after its first
    phase that returned [False] (a phase that does not return ends the row
    as well); no phase is called once a phase has returned [False]; and
    when [main] returns and no phase returned [False], the phases called
    are the whole row.  In particular, once the dependency check has
    returned [False], none of build, install and test is called. *)
Theorem dispatch_follows_mapping script c rest s :
  has_marker s = true ->
  let r := main shell load (script :: command_name c :: rest) s in
  let t := trace_of r in
  calls t = short_circuit (command_phases c) t /\
  (forall t1 p t2, t = t1 ++ EvReturn p (Some false) :: t2 -> calls t2 = []) /\
  (outcome_of r = Ret tt -> (forall p, ~ In (EvReturn p (Some false)) t) ->
   calls t = command_phases c) /\
  (In (EvReturn CheckDeps (Some false)) t ->
   ~ In Build (calls t) /\ ~ In Install (calls t) /\ ~ In RunTests (calls t)).
Proof.
  unfold has_marker. intros Hm. cbv zeta. rewrite main_run.
  destruct (lookup ["setup.py"] (cwd s)); [|discriminate Hm].
  destruct c; cbn [command_name].
  - rewrite dispatch_clean. call_clean s; settle_row.
  - rewrite dispatch_build. call_clean s; [|settle_row].
    call_phase shell (fun sh => check_requirements_call sh load) s0.
    destruct b; [|settle_row].
    call_phase shell build_package_call s1. destruct b; settle_row.
  - rewrite dispatch_install.
    call_phase shell (fun sh => check_requirements_call sh load) s.
    destruct b; [|settle_row].
    call_phase shell install_package_call s0. destruct b; settle_row.
  - rewrite dispatch_test.
    call_phase shell (fun sh => check_requirements_call sh load) s.
    destruct b; [|settle_row].
    call_phase shell run_tests_call s0. destruct b; settle_row.
  - rewrite dispatch_all. call_clean s; [|settle_row].
    call_phase shell (fun sh => check_requirements_call sh load) s0.
    destruct b; [|settle_row].
    call_phase shell build_package_call s1. destruct b; [|settle_row].
    call_phase shell install_package_call s2. destruct b; [|settle_row].
    call_phase shell run_tests_call s3. destruct b; settle_row.
Qed.
End Mapping.

Lemma dispatch_follows_mapping_witness :
  let r := main sample_shell no_load ("build.py" :: command_name CmdAll :: []) sample_sys in
  let t := trace_of r in
  calls t = short_circuit (command_phases CmdAll) t /\
  (forall t1 p t2, t = t1 ++ EvReturn p (Some false) :: t2 -> calls t2 = []) /\
  (outcome_of r = Ret tt -> (forall p, ~ In (EvReturn p (Some false)) t) ->
   calls t = command_phases CmdAll) /\
  (In (EvReturn CheckDeps (Some false)) t ->
   ~ In Build (calls t) /\ ~ In Install (calls t) /\ ~ In RunTests (calls t)).
Proof.
  apply (dispatch_follows_mapping sample_shell no_load "build.py" CmdAll [] sample_sys).
  reflexivity.
Defined.

(** C1, as the specification states it, fails.  In a working directory
    without [setup.py] the command [clean] calls no phase: [main] exits
    with status 1 before it reads the command.  And where [build] is a
    regular file the command [build] calls the clean phase alone, although
    no phase has reported a failure: [clean_build] raised. *)
Lemma known_command_runs_no_phase :
  let r := main offline_shell no_load ["build.py"; "clean"] empty_sys in
  let r' := main offline_shell no_load ["build.py"; "build"] blocked_sys in
  (has_marker empty_sys = false /\
   command_phases CmdClean = [Clean] /\
   calls (trace_of r) = [] /\
   outcome_of r = Raise (SystemExit 1)) /\
  (has_marker blocked_sys = true /\
   command_phases CmdBuild = [Clean; CheckDeps; Build] /\
   calls (trace_of r') = [Clean] /\
   (forall p, ~ In (EvReturn p (Some false)) (trace_of r')) /\
   outcome_of r' = Raise (NotADirectoryError ["build"])).
Proof.
  cbv zeta. repeat split.
  intros p H. vm_compute in H.
  repeat (destruct H as [H|H]; [discriminate H|]). exact H.
Qed.

(** ** The run without a command *)

Lemma outside_phase_trace ph v t rest :
  phase_trace ph (Some v) t -> outside false (t ++ rest) = outside false rest.
Proof. apply top_level_phase_trace. Qed.

Lemma outside_phase_raise ph t : phase_trace ph None t -> outside false t = [].
Proof. apply top_level_phase_raise. Qed.

(** Reads the events outside the phases off a trace made of phase calls. *)
Ltac read_top_level :=
  unfold top_level; cbn [banner app outside];
  repeat match goal with
    | H : phase_trace _ (Some _) ?t |- context [outside false (?t ++ _)] =>
        rewrite (outside_phase_trace _ _ t _ H)
    | H : phase_trace _ None ?t |- context [outside false ?t] =>
        rewrite (outside_phase_raise _ t H)
    end;
  cbn [app outside].

Ltac read_phases' :=
  rewrite ?phase_events_app;
  repeat match goal with
    | H : phase_trace _ _ ?t |- context [phase_events ?t] =>
        rewrite (phase_events_phase_trace _ _ _ H)
    end;
  cbn [banner phase_events filter is_phase_event app existsb orb].

(** C7, as the specification states it, fails.  Where the installer of
    aiohttp fails, the run without a command calls the clean phase and the
    dependency check only, prints no guidance, and returns.  In a working
    directory without [setup.py] it calls no phase at all, and where
    [build] is a regular file it calls the clean phase alone, which
    raises. *)
Lemma default_run_without_guidance :
  let r := main sample_shell no_load ["build.py"] sample_sys in
  let r0 := main offline_shell no_load ["build.py"] empty_sys in
  let r1 := main offline_shell no_load ["build.py"] blocked_sys in
  (has_marker sample_sys = true /\
   outcome_of r = Ret tt /\
   calls (trace_of r) = [Clean; CheckDeps] /\
   top_level (trace_of r) = banner /\
   ~ In (EvPrint "python build.py install") (trace_of r)) /\
  (has_marker empty_sys = false /\
   calls (trace_of r0) = [] /\
   outcome_of r0 = Raise (SystemExit 1)) /\
  (has_marker blocked_sys = true /\
   calls (trace_of r1) = [Clean] /\
   (forall p, ~ In (EvReturn p (Some false)) (trace_of r1)) /\
   outcome_of r1 = Raise (NotADirectoryError ["build"])).
Proof.
  cbv zeta. repeat split.
  - intros H. vm_compute in H.
    repeat (destruct H as [H|H]; [discriminate H|]). exact H.
  - intros p H. vm_compute in H.
    repeat (destruct H as [H|H]; [discriminate H|]). exact H.
Qed.

Lemma build_returned_true_iff t :
  existsb (fun ev => match ev with
                     | EvReturn Build (Some true) => true
                     | _ => false
                     end) (phase_events t) = true <->
  In (EvReturn Build (Some true)) t.
Proof.
  rewrite existsb_exists. split.
  - intros [ev [Hin H]].
    destruct ev as [l|p|m f|c rc|ph|ph v]; try discriminate.
    destruct ph; try discriminate. destruct v as [[|]|]; try discriminate.
    apply (in_phase_events (EvReturn Build (Some true)) t eq_refl), Hin.
  - intros H. exists (EvReturn Build (Some true)). split; [|reflexivity].
    apply (in_phase_events (EvReturn Build (Some true)) t eq_refl), H.
Qed.

Section DefaultRunTheorem.
Variable shell : string -> Sys -> Completed * Sys.
Variable load : string -> Sys -> Sys.

Lemma default_run_row script s m :
  lookup ["setup.py"] (cwd s) = Some m ->
  let r := main shell load [script] s in
  let t := trace_of r in
  (calls t = short_circuit default_phases t /\
   (forall t1 p t2, t = t1 ++ EvReturn p (Some false) :: t2 -> calls t2 = []) /\
   (outcome_of r = Ret tt -> (forall p, ~ In (EvReturn p (Some false)) t) ->
    calls t = default_phases) /\
   (In (EvReturn CheckDeps (Some false)) t ->
    ~ In Build (calls t) /\ ~ In Install (calls t) /\ ~ In RunTests (calls t))) /\
  top_level t = banner ++ (if build_succeeded t then guidance else []).
Proof.
  intros Hm. cbv zeta. rewrite main_run, Hm, dispatch_default.
  call_clean s.
  2:{ split; [settle_row|]. unfold build_succeeded.
      cbn [outcome_of state_of trace_of fst snd ret]. read_phases'. read_top_level. reflexivity. }
  call_phase shell (fun sh => check_requirements_call sh load) s0. destruct b.
  2:{ split; [settle_row|]. unfold build_succeeded.
      cbn [outcome_of state_of trace_of fst snd ret]. read_phases'. read_top_level. reflexivity. }
  call_phase shell build_package_call s1. destruct b.
  2:{ split; [settle_row|]. unfold build_succeeded.
      cbn [outcome_of state_of trace_of fst snd ret]. read_phases'. read_top_level. reflexivity. }
  rewrite bind_run, py_print_run, bind_run, py_print_run, bind_run, py_print_run,
    bind_run, !py_print_run.
  split; [settle_row|]. unfold build_succeeded.
      cbn [outcome_of state_of trace_of fst snd ret]. read_phases'. read_top_level. reflexivity.
Qed.

(** C7, amended.  Called without a command, [main] never calls the
    install phase or the test phase.  In a working directory that holds
    [setup.py] it calls clean, then the dependency check, then build, up to
    the first that fails and no further: the phases called are that list
    cut after its first phase that returned [False] (a phase that does not
    return ends the list as well), and the whole list when [main] returns
    and no phase returned [False].  What [main] prints there outside the
    phases is its banner, followed by the guidance exactly when
    [build_package] returned [True]. *)
Theorem default_run_never_installs script s :
  let r := main shell load [script] s in
  let t := trace_of r in
  (~ In Install (calls t) /\ ~ In RunTests (calls t)) /\
  (has_marker s = true ->
     calls t = short_circuit default_phases t /\
     (forall t1 p t2, t = t1 ++ EvReturn p (Some false) :: t2 -> calls t2 = []) /\
     (outcome_of r = Ret tt -> (forall p, ~ In (EvReturn p (Some false)) t) ->
      calls t = default_phases) /\
     top_level t = banner ++ (if build_succeeded t then guidance else []) /\
     (build_succeeded t = true <-> In (EvReturn Build (Some true)) t)).
Proof.
  cbv zeta. unfold has_marker.
  destruct (lookup ["setup.py"] (cwd s)) as [m|] eqn:Hm.
  - destruct (default_run_row script s m Hm) as [[Hk [Hh [Hx _]]] Htop].
    cbv zeta in *. split.
    + rewrite Hk. generalize (trace_of (main shell load [script] s)). intros t.
      unfold default_phases. cbn [short_circuit].
      destruct (result_of Clean t) as [[[|]|]|];
        destruct (result_of CheckDeps t) as [[[|]|]|];
        destruct (result_of Build t) as [[[|]|]|];
        split; intros H; in_cases H.
    + intros _. split; [exact Hk|]. split; [exact Hh|]. split; [exact Hx|].
      split; [exact Htop|]. apply build_returned_true_iff.
  - rewrite main_run, Hm. cbn [trace_of outcome_of fst snd].
    split; [split; intros H; vm_compute in H; exact H | discriminate].
Qed.
End DefaultRunTheorem.

(* ================================================================== *)
(** * Further properties of the script                                 *)
(* ================================================================== *)

Lemma printed_app t1 t2 : printed (t1 ++ t2) = printed t1 ++ printed t2.
Proof. apply flat_map_app. Qed.

Lemma printed_cons ev t : printed (ev :: t) = print_of ev ++ printed t.
Proof. reflexivity. Qed.

Section RunCommand.
Variable shell : string -> Sys -> Completed * Sys.
Variable load : string -> Sys -> Sys.

(** X1.  [run_command] runs the command it is given, once and no other,
    imports nothing, calls no phase and leaves the machine as that command
    left it.  It returns [True] exactly when the return code is 0 and
    [False] exactly when it is not: the [CalledProcessError] that
    [check=True] raises on such a code does not leave [run_command]. *)
Theorem run_command_runs_once command description s :
  let r := run_command shell command description s in
  let rc := returncode (fst (shell command s)) in
  (outcome_of r = Ret true <-> rc = 0%Z) /\
  (outcome_of r = Ret false <-> rc <> 0%Z) /\
  (forall code cmd err, outcome_of r <> Raise (CalledProcessError code cmd err)) /\
  spawns (trace_of r) = [(command, rc)] /\
  imports (trace_of r) = [] /\
  calls (trace_of r) = [] /\
  state_of r = snd (shell command s).
Proof.
  cbv zeta. rewrite run_command_run.
  cbn [outcome_of state_of trace_of fst snd].
  rewrite spawns_run_command, imports_run_command, calls_run_command.
  destruct (returncode (fst (shell command s)) =? 0)%Z eqn:E;
    [apply Z.eqb_eq in E | apply Z.eqb_neq in E].
  - repeat split; try reflexivity; try (intros; assumption);
      try (intros; congruence); discriminate.
  - repeat split; try reflexivity; try (intros; assumption);
      try (intros; congruence); discriminate.
Qed.

(** X2.  What [run_command] prints.  The first line names the description,
    or the command itself when the description is empty.  After a return
    code 0 the captured standard output follows, when there is any, and
    nothing else: the standard error is dropped.  After another return
    code the text of the error follows, then the captured standard error,
    when there is any: the standard output is dropped. *)
Theorem run_command_prints command description s :
  let r := run_command shell command description s in
  let out := fst (shell command s) in
  let head := ("Running: " ++ (if nonempty description then description else command))%string in
  (returncode out = 0%Z ->
     printed (trace_of r) =
     head :: (if nonempty (stdout out) then [stdout out] else [])) /\
  (returncode out <> 0%Z ->
     printed (trace_of r) =
     head ::
     ("Command execution error: " ++ str_CalledProcessError (returncode out) command)%string ::
     (if nonempty (stderr out) then [("Stderr: " ++ stderr out)%string] else [])).
Proof.
  cbv zeta. rewrite run_command_run. cbn [trace_of snd].
  unfold run_command_trace, str_or. split; intros H.
  - rewrite H. cbn [Z.eqb printed flat_map print_of app].
    destruct (nonempty (stdout (fst (shell command s)))); reflexivity.
  - apply Z.eqb_neq in H. rewrite H. cbn [printed flat_map print_of app].
    destruct (nonempty (stderr (fst (shell command s)))); reflexivity.
Qed.

(** X3.  [install_package] runs the one command [pip install -e .], and
    returns whether its return code is 0; the machine is as that command
    left it. *)
Theorem install_package_one_command s :
  let r := install_package shell s in
  let rc := returncode (fst (shell "pip install -e ." s)) in
  outcome_of r = Ret (rc =? 0)%Z /\
  spawns (trace_of r) = [("pip install -e .", rc)] /\
  imports (trace_of r) = [] /\
  calls (trace_of r) = [Install] /\
  state_of r = snd (shell "pip install -e ." s).
Proof.
  cbv zeta. rewrite install_package_run. cbv zeta.
  cbn [outcome_of state_of trace_of fst snd]. read_trace.
  repeat split; reflexivity.
Qed.

(** X4.  [run_tests] runs the one command [python -m pytest tests/ -v], and
    returns whether its return code is 0; the machine is as that command
    left it. *)
Theorem run_tests_one_command s :
  let r := run_tests shell s in
  let rc := returncode (fst (shell "python -m pytest tests/ -v" s)) in
  outcome_of r = Ret (rc =? 0)%Z /\
  spawns (trace_of r) = [("python -m pytest tests/ -v", rc)] /\
  imports (trace_of r) = [] /\
  calls (trace_of r) = [RunTests] /\
  state_of r = snd (shell "python -m pytest tests/ -v" s).
Proof.
  cbv zeta. rewrite run_tests_run. cbv zeta.
  cbn [outcome_of state_of trace_of fst snd]. read_trace.
  repeat split; reflexivity.
Qed.
End RunCommand.

(** ** The clean phase stays in the working directory *)

Lemma local_ret {A} (a : A) : local_run (ret a).
Proof. intros s. repeat split. Qed.

Lemma local_raise {A} e : local_run (@raise A e).
Proof. intros s. repeat split. Qed.

Lemma local_bind {A B} (m : M A) (f : A -> M B) :
  local_run m -> (forall a, local_run (f a)) -> local_run (bind m f).
Proof.
  intros Hm Hf s. rewrite bind_run. specialize (Hm s).
  destruct (m s) as [[[a|e] s1] t1]; cbn [state_of trace_of fst snd] in *.
  - specialize (Hf a s1). destruct (f a s1) as [[o s2] t2].
    cbn [state_of trace_of fst snd] in *.
    destruct Hm as [Hm1 [Hm2 Hm3]], Hf as [Hf1 [Hf2 Hf3]].
    rewrite spawns_app, imports_app, Hm2, Hm3, Hf2, Hf3.
    repeat split. congruence.
  - exact Hm.
Qed.

Lemma local_print line : local_run (py_print line).
Proof. intros s. repeat split. Qed.

Lemma local_exists p : local_run (os_path_exists p).
Proof. intros s. repeat split. Qed.

Lemma local_scandir p : local_run (scandir p).
Proof. intros s. repeat split. Qed.

Lemma local_rmtree p : local_run (shutil_rmtree p).
Proof.
  intros s. destruct (lookup p (cwd s)) as [[x|es]|] eqn:E.
  - rewrite (shutil_rmtree_file _ _ _ E). repeat split.
  - rewrite (shutil_rmtree_dir _ _ _ E). repeat split.
  - rewrite (shutil_rmtree_missing _ _ E). repeat split.
Qed.

Lemma local_for_each {A} (l : list A) body :
  (forall x, local_run (body x)) -> local_run (for_each l body).
Proof.
  intros H. induction l as [|x l IH]; [apply local_ret|].
  cbn [for_each]. apply local_bind; [apply H | intros _; exact IH].
Qed.

Lemma local_clean_dir d : local_run (clean_dir d).
Proof.
  unfold clean_dir. apply local_bind; [apply local_exists|].
  intros [|]; [|apply local_ret].
  apply local_bind; [apply local_print | intros _; apply local_rmtree].
Qed.

Lemma local_remove_pycache root copy : forall dirs, local_run (remove_pycache root copy dirs).
Proof.
  induction copy as [|c r IH]; intros dirs; [apply local_ret|].
  cbn [remove_pycache]. destruct (c =? "__pycache__"); [|apply IH].
  apply local_bind; [apply local_print | intros _].
  apply local_bind; [apply local_rmtree | intros _].
  destruct (list_remove c dirs); [apply IH | apply local_raise].
Qed.

Lemma local_os_walk_from fuel : forall top, local_run (os_walk_from fuel clean_walk_body top).
Proof.
  induction fuel as [|fuel IH]; intros top; [apply local_raise|].
  rewrite os_walk_from_S. apply local_bind; [apply local_scandir|].
  intros [[dirs files]|]; [|apply local_ret].
  apply local_bind; [apply local_remove_pycache | intros dirs'].
  apply local_for_each. intros d. apply IH.
Qed.

Lemma local_os_walk top : local_run (os_walk clean_walk_body top).
Proof.
  unfold os_walk. apply local_bind.
  - intros s. repeat split.
  - intros s. apply local_os_walk_from.
Qed.

Lemma local_phase {A} ph v (m : M A) : local_run m -> local_run (phase ph v m).
Proof.
  intros Hm. unfold phase.
  apply local_bind; [intros s; repeat split | intros _].
  apply local_bind; [exact Hm | intros a].
  apply local_bind; [intros s; repeat split | intros _; apply local_ret].
Qed.

Lemma local_clean_build : local_run clean_build.
Proof.
  unfold clean_build. apply local_phase.
  apply local_bind; [apply local_for_each, local_clean_dir | intros _; apply local_os_walk].
Qed.

(** X5.  [clean_build] stays in the working directory: whatever the tree
    and whether it returns or raises, it runs no shell command, imports no
    module and leaves the importable modules as they were; the only phase
    it calls is itself; and the exception it may raise is never
    [SystemExit]. *)
Theorem clean_build_is_local s :
  let r := clean_build s in
  site (state_of r) = site s /\
  spawns (trace_of r) = [] /\
  imports (trace_of r) = [] /\
  calls (trace_of r) = [Clean] /\
  (forall code, outcome_of r <> Raise (SystemExit code)).
Proof.
  cbv zeta. destruct (local_clean_build s) as [H1 [H2 H3]].
  split; [exact H1|]. split; [exact H2|]. split; [exact H3|].
  destruct (clean_build_call s) as [s' [t [[Hrun Htr]|[e [Hrun [Htr Hne]]]]]];
    rewrite Hrun; cbn [outcome_of trace_of fst snd];
    rewrite <- calls_phase_events, (phase_events_phase_trace _ _ _ Htr).
  - split; [reflexivity | discriminate].
  - split; [reflexivity|]. intros code H. inversion H. apply (Hne code). assumption.
Qed.

(** ** The clean phase when it fails *)

Lemma clean_dirs_drops names : forall s o s1 t,
  for_each names clean_dir s = (o, s1, t) ->
  exists dropped,
    (forall d, In d dropped -> In d names) /\
    cwd s1 = drop_all dropped (cwd s) /\ site s1 = site s.
Proof.
  induction names as [|d r IH]; intros s o s1 t.
  - cbn [for_each]. unfold ret. intros H. inversion H; subst.
    exists []. repeat split. intros d [].
  - cbn [for_each]. rewrite bind_run, clean_dir_run.
    destruct (lookup [d] (cwd s)) as [[x|es]|] eqn:E.
    + intros H. inversion H; subst. exists []. repeat split. intros d' [].
    + destruct (for_each r clean_dir (mkSys (drop_child d (cwd s)) (site s) (depth_limit s)))
        as [[o' s'] t'] eqn:Er.
      intros H. inversion H; subst. clear H.
      destruct (IH _ _ _ _ Er) as [dropped [Hin [Hc Hs]]]. cbn [cwd site depth_limit] in *.
      exists (d :: dropped). split; [|split; [exact Hc | exact Hs]].
      intros d' [Heq|H']; [left; exact Heq | right; apply Hin, H'].
    + destruct (for_each r clean_dir s) as [[o' s'] t'] eqn:Er.
      intros H. inversion H; subst. clear H.
      destruct (IH _ _ _ _ Er) as [dropped [Hin [Hc Hs]]].
      exists dropped. split; [|split; [exact Hc | exact Hs]].
      intros d' H'. right. apply Hin, H'.
Qed.

Lemma entry_at_drop_all c p names fs :
  entry_at (c :: p) (drop_all names fs) =
  if mem c names then None else entry_at (c :: p) fs.
Proof.
  unfold entry_at. rewrite lookup_drop_all. destruct (mem c names); reflexivity.
Qed.

Lemma mem_incl c dropped names :
  (forall d, In d dropped -> In d names) -> mem c names = false -> mem c dropped = false.
Proof.
  intros Hin H. apply mem_false_iff. apply mem_false_iff in H.
  intros H'. apply H, Hin, H'.
Qed.

(** X6.  Whatever its outcome, [clean_build] only removes, and only what it
    is after: on a well-formed tree, also when it raises half way, every
    path outside the set to remove names afterwards what it named before,
    and every path that names something afterwards named the same thing
    before. *)
Theorem clean_build_only_removes s :
  wf (cwd s) = true ->
  let r := clean_build s in
  (forall p, ~ to_remove (cwd s) p ->
     entry_at p (cwd (state_of r)) = entry_at p (cwd s)) /\
  (forall p e, entry_at p (cwd (state_of r)) = Some e ->
     entry_at p (cwd s) = Some e).
Proof.
  intros Hwf. cbv zeta. unfold clean_build. rewrite phase_run, bind_run.
  destruct (for_each dirs_to_clean clean_dir s) as [[o s1] t] eqn:E.
  destruct (clean_dirs_drops _ _ _ _ _ E) as [dropped [Hin [Hc Hs]]].
  destruct (clean_dirs_post _ _ _ _ _ E) as [_ [Hwf1 _]]. specialize (Hwf1 Hwf).
  assert (Hfacts : forall fs',
            (forall c p, entry_at (c :: p) fs' = None \/
                         entry_at (c :: p) fs' = entry_at (c :: p) (cwd s)) ->
            (forall c p, mem c dirs_to_clean = false ->
                         in_pycache (c :: p) (cwd s) = false ->
                         entry_at (c :: p) fs' = entry_at (c :: p) (cwd s)) ->
            kind fs' = kind (cwd s) ->
            (forall p, ~ to_remove (cwd s) p -> entry_at p fs' = entry_at p (cwd s)) /\
            (forall p e, entry_at p fs' = Some e -> entry_at p (cwd s) = Some e)).
  { intros fs' Hsub Hkeep Hk. split.
    - intros [|c p] Hp; [unfold entry_at; simpl; rewrite Hk; reflexivity|].
      assert (Hr : removedb (cwd s) (c :: p) = false).
      { destruct (removedb (cwd s) (c :: p)) eqn:Er; [|reflexivity].
        exfalso. apply Hp, removedb_iff, Er. }
      unfold removedb in Hr. apply orb_false_iff in Hr. apply Hkeep; tauto.
    - intros [|c p] e He.
      + unfold entry_at in *. simpl in *. rewrite <- Hk. exact He.
      + destruct (Hsub c p) as [H|H]; [congruence | rewrite <- H; exact He]. }
  destruct o as [[]|e].
  - destruct s1 as [fs1 st1 lim1]. cbn [cwd site depth_limit] in *.
    rewrite (os_walk_run fs1 st1 lim1 Hwf1).
    assert (Hst : forall (o : Outcome unit) s' t',
              cwd (state_of (match o with
                             | Ret a => (Ret a, s', EvEnter Clean :: t' ++ [EvReturn Clean None])
                             | Raise e => (Raise e, s', EvEnter Clean :: t')
                             end)) = cwd s').
    { intros [a|e] s' t'; reflexivity. }
    rewrite Hst. cbn [cwd]. clear Hst.
    assert (Hsw : forall c p,
              entry_at (c :: p) (swept lim1 fs1) = entry_at (c :: p) fs1 \/
              (in_pycache (c :: p) fs1 = true /\
               entry_at (c :: p) (swept lim1 fs1) = None)).
    { intros c p. apply entry_at_swept, Hwf1. }
    subst fs1. apply Hfacts.
    + intros c p. destruct (Hsw c p) as [H|[_ H]]; rewrite H; [|left; reflexivity].
      rewrite entry_at_drop_all. destruct (mem c dropped); auto.
    + intros c p Hm Hp. destruct (Hsw c p) as [H|[H _]].
      * rewrite H, entry_at_drop_all.
        rewrite (mem_incl c dropped dirs_to_clean Hin Hm). reflexivity.
      * rewrite in_pycache_drop_all in H.
        rewrite (mem_incl c dropped dirs_to_clean Hin Hm), Hp in H. discriminate.
    + rewrite kind_swept, kind_drop_all. reflexivity.
  - cbn [state_of fst snd]. rewrite Hc. apply Hfacts.
    + intros c p. rewrite entry_at_drop_all. destruct (mem c dropped); auto.
    + intros c p Hm _. rewrite entry_at_drop_all.
      rewrite (mem_incl c dropped dirs_to_clean Hin Hm). reflexivity.
    + apply kind_drop_all.
Qed.

Lemma clean_build_only_removes_witness :
  let r := clean_build half_blocked_sys in
  (forall p, ~ to_remove (cwd half_blocked_sys) p ->
     entry_at p (cwd (state_of r)) = entry_at p (cwd half_blocked_sys)) /\
  (forall p e, entry_at p (cwd (state_of r)) = Some e ->
     entry_at p (cwd half_blocked_sys) = Some e).
Proof. apply (clean_build_only_removes half_blocked_sys). reflexivity. Defined.




(** ** The machine changes by the commands run and the modules loaded *)





Section Replays.
Variable shell : string -> Sys -> Completed * Sys.
Variable load : string -> Sys -> Sys.





















End Replays.

(** ** The commands a run can contain *)

Lemma subseq_nil L : subseq [] L = true.
Proof. destruct L; reflexivity. Qed.

Lemma subseq_tail M : forall x l, subseq (x :: l) M = true -> subseq l M = true.
Proof.
  induction M as [|y M IH]; intros x l H; [discriminate|].
  cbn [subseq] in H. destruct l as [|z l]; [apply subseq_nil|]. cbn [subseq].
  destruct (x =? y).
  - destruct (z =? y); [apply (IH z), H | exact H].
  - apply IH in H. destruct (z =? y); [apply (IH z), H | exact H].
Qed.

Lemma subseq_skip_front P : forall l L,
  subseq l L = true -> subseq l (P ++ L) = true.
Proof.
  induction P as [|y P IH]; intros l L H; [exact H|].
  cbn [app]. destruct l as [|x l]; [apply subseq_nil|]. cbn [subseq].
  destruct (x =? y); [|apply IH, H].
  apply (subseq_tail _ x), IH, H.
Qed.

Lemma subseq_app L1 : forall l1 l2 L2,
  subseq l1 L1 = true -> subseq l2 L2 = true ->
  subseq (l1 ++ l2) (L1 ++ L2) = true.
Proof.
  induction L1 as [|y L1 IH]; intros l1 l2 L2 H1 H2.
  - destruct l1; [exact H2 | discriminate].
  - destruct l1 as [|x l1].
    + cbn [app]. apply (subseq_skip_front (y :: L1)), H2.
    + cbn [app subseq] in *. destruct (x =? y).
      * apply IH; assumption.
      * apply (IH (x :: l1)); assumption.
Qed.

Lemma subseq_skip_back l L P : subseq l L = true -> subseq l (L ++ P) = true.
Proof.
  intros H. rewrite <- (app_nil_r l). apply subseq_app; [exact H | apply subseq_nil].
Qed.

Lemma rw_silent {A} L (m : M A) :
  (forall s, spawns (trace_of (m s)) = []) -> runs_within L m.
Proof. intros H s. rewrite H. apply subseq_nil. Qed.

Lemma rw_ret {A} L (a : A) : runs_within L (ret a).
Proof. apply rw_silent. reflexivity. Qed.

Lemma rw_print L line : runs_within L (py_print line).
Proof. apply rw_silent. reflexivity. Qed.

Lemma rw_bind {A B} L1 L2 (m : M A) (f : A -> M B) :
  runs_within L1 m -> (forall a, runs_within L2 (f a)) ->
  runs_within (L1 ++ L2) (bind m f).
Proof.
  intros Hm Hf s. rewrite bind_run. specialize (Hm s).
  destruct (m s) as [[[a|e] s1] t1]; cbn [trace_of snd] in *.
  - specialize (Hf a s1). destruct (f a s1) as [[o s2] t2]. cbn [trace_of snd] in *.
    rewrite spawns_app, map_app. apply subseq_app; assumption.
  - apply subseq_skip_back, Hm.
Qed.

Lemma rw_front {A} P L (m : M A) : runs_within L m -> runs_within (P ++ L) m.
Proof. intros H s. apply subseq_skip_front, H. Qed.

Lemma rw_back {A} P L (m : M A) : runs_within L m -> runs_within (L ++ P) m.
Proof. intros H s. apply subseq_skip_back, H. Qed.

Lemma rw_then {A B} L (m : M A) (f : A -> M B) :
  (forall s, spawns (trace_of (m s)) = []) -> (forall a, runs_within L (f a)) ->
  runs_within L (bind m f).
Proof. intros Hm Hf. apply (rw_bind [] L); [apply rw_silent, Hm | exact Hf]. Qed.

Lemma rw_phase {A} L ph v (m : M A) : runs_within L m -> runs_within L (phase ph v m).
Proof.
  intros Hm. unfold phase. apply rw_then; [reflexivity | intros _].
  rewrite <- (app_nil_r L). apply rw_bind; [exact Hm | intros a].
  apply rw_then; [reflexivity | intros _; apply rw_ret].
Qed.

Section RunsWithin.
Variable shell : string -> Sys -> Completed * Sys.
Variable load : string -> Sys -> Sys.

Lemma rw_run_command c d : runs_within [c] (run_command shell c d).
Proof.
  intros s. rewrite run_command_run. cbn [trace_of snd].
  rewrite spawns_run_command. cbn [map fst subseq]. rewrite String.eqb_refl. reflexivity.
Qed.

Lemma rw_require name : runs_within [("pip install " ++ name)%string] (require shell load name).
Proof.
  unfold require.
  apply rw_then; [intros s; rewrite py_import_run; reflexivity | intros [|]].
  - apply rw_then; [reflexivity | intros _; apply rw_ret].
  - apply rw_then; [reflexivity | intros _].
    apply rw_then; [reflexivity | intros _; apply rw_run_command].
Qed.

Lemma rw_check :
  runs_within ["pip install requests"; "pip install aiohttp"] (check_requirements shell load).
Proof.
  rewrite check_requirements_require. apply rw_phase.
  apply rw_then; [reflexivity | intros _].
  apply (rw_bind ["pip install requests"] ["pip install aiohttp"]);
    [apply rw_require | intros [|]]; cbn [negb]; [|apply rw_ret].
  rewrite <- (app_nil_r ["pip install aiohttp"]).
  apply rw_bind; [apply rw_require | intros [|]; apply rw_ret].
Qed.

Lemma rw_build :
  runs_within ["python setup.py sdist"; "python setup.py bdist_wheel"]
    (build_package shell).
Proof.
  unfold build_package. apply rw_phase.
  apply rw_then; [reflexivity | intros _].
  apply (rw_bind ["python setup.py sdist"] ["python setup.py bdist_wheel"]);
    [apply rw_run_command | intros [|]]; cbn [negb]; [|apply rw_ret].
  rewrite <- (app_nil_r ["python setup.py bdist_wheel"]).
  apply rw_bind; [apply rw_run_command | intros [|]; apply rw_ret].
Qed.

Lemma rw_install : runs_within ["pip install -e ."] (install_package shell).
Proof.
  unfold install_package. apply rw_phase.
  apply rw_then; [reflexivity | intros _; apply rw_run_command].
Qed.

Lemma rw_tests : runs_within ["python -m pytest tests/ -v"] (run_tests shell).
Proof.
  unfold run_tests. apply rw_phase.
  apply rw_then; [reflexivity | intros _; apply rw_run_command].
Qed.

Lemma rw_clean_then L (k : M unit) :
  runs_within L k -> runs_within L (clean_build ;; k).
Proof.
  intros Hk. apply rw_then; [|intros _; exact Hk].
  intros s. apply (local_clean_build s).
Qed.

(** The commands after the dependency check, in [all_commands]. *)
Let tail_commands : list string :=
  ["python setup.py sdist"; "python setup.py bdist_wheel";
   "pip install -e ."; "python -m pytest tests/ -v"].

Lemma rw_after_check (m : M bool) :
  runs_within tail_commands m ->
  runs_within all_commands
    (ok <- check_requirements shell load ;; if ok then m ;; ret tt else ret tt).
Proof.
  intros Hm.
  apply (rw_bind ["pip install requests"; "pip install aiohttp"] tail_commands);
    [apply rw_check | intros [|]]; [|apply rw_ret].
  rewrite <- (app_nil_r tail_commands).
  apply rw_bind; [exact Hm | intros _; apply rw_ret].
Qed.

Lemma rw_all_tail :
  runs_within all_commands
    (ok <- check_requirements shell load ;;
     if ok then
       built <- build_package shell ;;
       if built then
         installed <- install_package shell ;;
         if installed then run_tests shell ;; ret tt else ret tt
       else ret tt
     else ret tt).
Proof.
  apply (rw_bind ["pip install requests"; "pip install aiohttp"] tail_commands);
    [apply rw_check | intros [|]]; [|apply rw_ret].
  apply (rw_bind ["python setup.py sdist"; "python setup.py bdist_wheel"]
           ["pip install -e ."; "python -m pytest tests/ -v"]);
    [apply rw_build | intros [|]]; [|apply rw_ret].
  apply (rw_bind ["pip install -e ."] ["python -m pytest tests/ -v"]);
    [apply rw_install | intros [|]]; [|apply rw_ret].
  rewrite <- (app_nil_r ["python -m pytest tests/ -v"]).
  apply rw_bind; [apply rw_tests | intros _; apply rw_ret].
Qed.

Lemma rw_default_tail :
  runs_within all_commands
    (ok <- check_requirements shell load ;;
     if ok then
       built <- build_package shell ;;
       if built then
         py_print "\nBuild completed successfully!" ;;
         py_print "\nTo install run:" ;;
         py_print "python build.py install" ;;
         py_print "\nTo run tests:" ;;
         py_print "python build.py test"
       else ret tt
     else ret tt).
Proof.
  apply (rw_bind ["pip install requests"; "pip install aiohttp"] tail_commands);
    [apply rw_check | intros [|]]; [|apply rw_ret].
  apply (rw_bind ["python setup.py sdist"; "python setup.py bdist_wheel"]
           ["pip install -e ."; "python -m pytest tests/ -v"]);
    [apply rw_build | intros [|]]; [|apply rw_ret].
  apply rw_silent. reflexivity.
Qed.

(** X10.  Whatever the command line and the machine, the shell commands of
    a run of [main] are, in this order and each at most once, among
    [pip install requests], [pip install aiohttp], [python setup.py sdist],
    [python setup.py bdist_wheel], [pip install -e .] and
    [python -m pytest tests/ -v]: no other command is run, none is run
    twice, and none before one that precedes it in this list. *)
Theorem main_runs_known_commands_in_order argv s :
  subseq (map fst (spawns (trace_of (main shell load argv s)))) all_commands = true.
Proof.
  rewrite main_run.
  destruct (lookup ["setup.py"] (cwd s)) as [m|]; [|reflexivity].
  assert (H : runs_within all_commands (dispatch shell load argv)).
  { destruct argv as [|script [|a rest]].
    - change (dispatch shell load []) with (dispatch shell load ["python"]).
      rewrite dispatch_default. apply rw_clean_then, rw_default_tail.
    - rewrite dispatch_default. apply rw_clean_then, rw_default_tail.
    - unfold dispatch. cbn [length Nat.ltb Nat.leb nth].
      destruct (a =? "clean").
      { apply rw_silent. intros s0. apply (local_clean_build s0). }
      destruct (a =? "build").
      { apply rw_clean_then, rw_after_check.
        apply (rw_back ["pip install -e ."; "python -m pytest tests/ -v"]
                 ["python setup.py sdist"; "python setup.py bdist_wheel"]), rw_build. }
      destruct (a =? "install").
      { apply rw_after_check.
        apply (rw_front ["python setup.py sdist"; "python setup.py bdist_wheel"]
                 ["pip install -e ."; "python -m pytest tests/ -v"]).
        apply (rw_back ["python -m pytest tests/ -v"] ["pip install -e ."]), rw_install. }
      destruct (a =? "test").
      { apply rw_after_check.
        apply (rw_front ["python setup.py sdist"; "python setup.py bdist_wheel";
                         "pip install -e ."]
                 ["python -m pytest tests/ -v"]), rw_tests. }
      destruct (a =? "all").
      { apply rw_clean_then, rw_all_tail. }
      apply rw_silent. reflexivity. }
  specialize (H s). destruct (dispatch shell load argv s) as [[o s'] t].
  cbn [trace_of snd] in *. rewrite spawns_app. exact H.
Qed.

(** X11.  The exit status of [main] is 0 or 1, whatever the command line,
    the shell and the machine. *)
Theorem exit_status_is_0_or_1 argv s :
  exit_status (outcome_of (main shell load argv s)) = 0%Z \/
  exit_status (outcome_of (main shell load argv s)) = 1%Z.
Proof.
  rewrite main_run.
  destruct (lookup ["setup.py"] (cwd s)) as [m|]; [|right; reflexivity].
  pose proof (dispatch_outcome shell load argv s) as Ho.
  destruct (dispatch shell load argv s) as [[o s'] t]. cbn [outcome_of fst snd] in *.
  destruct (runs_clean argv); [|subst o; left; reflexivity].
  destruct (clean_build_call s) as [s1 [t1 [[Hrun _]|[e [Hrun [_ Hne]]]]]];
    rewrite Hrun in Ho; cbn [outcome_of fst] in Ho; subst o.
  - left. reflexivity.
  - right. destruct e; try reflexivity. exfalso. apply (Hne code). reflexivity.
Qed.
End RunsWithin.

(** ** How the runs of [main] compose *)

(** Brings two traces built from the same pieces to the same bracketing. *)
Ltac same_trace :=
  cbn [outcome_of state_of trace_of fst snd ret];
  repeat rewrite <- app_assoc; cbn [app]; rewrite ?app_nil_r;
  repeat rewrite <- app_assoc; cbn [app].

Ltac read_build_succeeded :=
  unfold build_succeeded; cbn [outcome_of state_of trace_of fst snd ret];
  read_phases'.

Section Composition.
Variable shell : string -> Sys -> Completed * Sys.
Variable load : string -> Sys -> Sys.

(** X12.  The run without a command is the run of the command [build] with
    the guidance after it: both have the same outcome and leave the same
    machine, and the trace of the first is the trace of the second,
    followed by the guidance when [build_package] returned [True]. *)
Theorem default_run_is_build_then_guidance script script' rest s :
  let r0 := main shell load [script] s in
  let rb := main shell load (script' :: "build" :: rest) s in
  outcome_of r0 = outcome_of rb /\
  state_of r0 = state_of rb /\
  trace_of r0 =
    trace_of rb ++ (if build_succeeded (trace_of rb) then guidance else []).
Proof.
  cbv zeta. rewrite !main_run.
  destruct (lookup ["setup.py"] (cwd s)) as [m|].
  2:{ split; [reflexivity|]. split; [reflexivity|].
      cbn [trace_of snd]. rewrite app_nil_r. reflexivity. }
  rewrite dispatch_default, dispatch_build.
  call_clean s.
  2:{ read_build_succeeded. same_trace. repeat split; reflexivity. }
  call_phase shell (fun sh => check_requirements_call sh load) s0. destruct b.
  2:{ read_build_succeeded. same_trace. repeat split; reflexivity. }
  call_phase shell build_package_call s1. destruct b.
  2:{ read_build_succeeded. same_trace. repeat split; reflexivity. }
  rewrite bind_run, py_print_run, bind_run, py_print_run, bind_run, py_print_run,
    bind_run, !py_print_run.
  read_build_succeeded. same_trace. repeat split; reflexivity.
Qed.

(** X13.  The run of the command [all] is the run of the command [build],
    carried on: when [build_package] did not return [True] the two runs
    are the same; when it did, the run of [all] is the run of [build]
    followed, from the machine that run left, by [install_package] and,
    when that returns [True], by [run_tests]. *)
Theorem all_run_continues_build_run script script' rest rest' s :
  let ra := main shell load (script :: "all" :: rest) s in
  let rb := main shell load (script' :: "build" :: rest') s in
  let carry_on :=
    (installed <- install_package shell ;;
     if installed then run_tests shell ;; ret tt else ret tt) in
  ra = if build_succeeded (trace_of rb)
       then match carry_on (state_of rb) with
            | (o, s', t') => (o, s', trace_of rb ++ t')
            end
       else rb.
Proof.
  cbv zeta. rewrite !main_run.
  destruct (lookup ["setup.py"] (cwd s)) as [m|]; [|reflexivity].
  rewrite dispatch_all, dispatch_build.
  call_clean s.
  2:{ read_build_succeeded. reflexivity. }
  call_phase shell (fun sh => check_requirements_call sh load) s0. destruct b.
  2:{ read_build_succeeded. reflexivity. }
  call_phase shell build_package_call s1. destruct b.
  2:{ read_build_succeeded. reflexivity. }
  read_build_succeeded.
  call_phase shell install_package_call s2. destruct b.
  2:{ same_trace. reflexivity. }
  call_phase shell run_tests_call s3. same_trace. reflexivity.
Qed.
End Composition.

(** ** The clean phase with nothing to clean *)

Lemma no_pycache_entries es :
  nodupb (map fst es) = true ->
  (forall p, in_pycache p (Dir es) = false) ->
  forall k v, In (k, v) es ->
    is_pycache_dir (k, v) = false /\ forall p, in_pycache p v = false.
Proof.
  intros Hnd H k v Hin.
  pose proof (find_entry_in _ _ _ Hnd Hin) as Hf.
  split.
  - specialize (H [k]). cbn [in_pycache] in H. rewrite Hf in H.
    apply orb_false_iff in H. tauto.
  - intros p. specialize (H (k :: p)). cbn [in_pycache] in H. rewrite Hf in H.
    apply orb_false_iff in H. tauto.
Qed.

Lemma prune_fixed n :
  wf n = true ->
  (forall p, in_pycache p n = false) ->
  prune n = n /\ forall root, walk_events root n = [].
Proof.
  induction n as [d|es IH] using Node_induction; intros Hwf H.
  - split; reflexivity.
  - pose proof Hwf as Hwf'. rewrite wf_Dir in Hwf'. apply andb_true_iff in Hwf'.
    destruct Hwf' as [Hnd Hwe].
    pose proof (no_pycache_entries es Hnd H) as Hes.
    assert (Hall : forall k v, In (k, v) es ->
              is_pycache_dir (k, v) = false /\ prune v = v /\
              forall root, walk_events root v = []).
    { intros k v Hin. destruct (Hes k v Hin) as [H1 H2]. split; [exact H1|].
      rewrite Forall_forall in IH. apply (IH (k, v) Hin); [|exact H2].
      eapply wf_entries_in; eassumption. }
    clear IH H Hes Hwf Hnd Hwe.
    assert (Hm : mem pycache (dir_names es) = false).
    { apply mem_false_iff. intros Hin. apply in_dir_names in Hin.
      destruct Hin as [v [Hin Hd]]. destruct (Hall _ _ Hin) as [Hp _].
      unfold is_pycache_dir in Hp. cbn [fst snd] in Hp.
      rewrite Hd, String.eqb_refl in Hp. discriminate. }
    split.
    + rewrite prune_Dir. f_equal.
      induction es as [|[k v] r IHr]; [reflexivity|].
      cbn [prune_entries].
      destruct (Hall k v (or_introl eq_refl)) as [Hp [Hv _]].
      rewrite Hp, Hv. f_equal. apply IHr.
      * intros k' v' Hin. apply Hall. right. exact Hin.
      * apply mem_false_iff. intros Hin. apply in_dir_names in Hin.
        destruct Hin as [w [Hin Hd]]. destruct (Hall _ _ (or_intror Hin)) as [Hp' _].
        unfold is_pycache_dir in Hp'. cbn [fst snd] in Hp'.
        rewrite Hd, String.eqb_refl in Hp'. discriminate.
    + intros root. rewrite walk_events_Dir, Hm. cbn [app]. clear Hm.
      induction es as [|[k v] r IHr]; [reflexivity|].
      cbn [walk_children].
      destruct (Hall k v (or_introl eq_refl)) as [Hp [_ Hw]].
      rewrite Hp, Hw. rewrite IHr.
      * destruct (is_dir v); reflexivity.
      * intros k' v' Hin. apply Hall. right. exact Hin.
Qed.

Lemma has_pycache_dir_Dir es : has_pycache_dir (Dir es) = any_pycache_dir es.
Proof. reflexivity. Qed.

Lemma any_pycache_dir_in es k v :
  any_pycache_dir es = false -> In (k, v) es ->
  is_pycache_dir (k, v) = false /\ has_pycache_dir v = false.
Proof.
  induction es as [|[k' v'] r IH]; [intros _ []|].
  cbn [any_pycache_dir]. rewrite !orb_false_iff. intros [[H1 H2] H3] [Heq|Hin].
  - inversion Heq; subst. split; assumption.
  - apply IH; assumption.
Qed.

Lemma no_pycache_dir p : forall n,
  has_pycache_dir n = false -> in_pycache p n = false.
Proof.
  induction p as [|c p IH]; intros n H; [reflexivity|].
  destruct n as [x|es]; [reflexivity|].
  cbn [in_pycache]. destruct (find_entry c es) as [v|] eqn:E; [|reflexivity].
  rewrite has_pycache_dir_Dir in H.
  destruct (any_pycache_dir_in es c v H (find_entry_some _ _ _ E)) as [H1 H2].
  rewrite H1, (IH v H2). reflexivity.
Qed.

(** X14.  With nothing to clean, [clean_build] does nothing: on a
    well-formed tree where none of the names of [dirs_to_clean] exists, no
    directory is named [__pycache__] and no entry lies deeper than the walk
    can go down, it returns, prints nothing and leaves the machine as it
    was. *)
Theorem clean_build_nothing_to_do fs st lim :
  wf fs = true ->
  (forall d, In d dirs_to_clean -> lookup [d] fs = None) ->
  has_pycache_dir fs = false ->
  levels fs <= lim ->
  clean_build (mkSys fs st lim) =
  (Ret tt, mkSys fs st lim, [EvEnter Clean; EvReturn Clean None]).
Proof.
  intros Hwf Habs Hpc Hlv.
  assert (Hno : forall p, in_pycache p fs = false).
  { intros p. apply no_pycache_dir, Hpc. }
  destruct (prune_fixed fs Hwf Hno) as [Hp Hw].
  unfold clean_build. rewrite phase_run, bind_run.
  rewrite clean_dirs_absent by exact Habs.
  pose proof (height_le_levels fs) as Hh. pose proof (levels_positive fs) as Hpos.
  rewrite (os_walk_clean fs st lim Hwf) by lia. rewrite Hp, Hw. reflexivity.
Qed.

Lemma clean_build_nothing_to_do_witness :
  clean_build tidy_sys =
  (Ret tt, tidy_sys, [EvEnter Clean; EvReturn Clean None]).
Proof.
  apply (clean_build_nothing_to_do (cwd tidy_sys) (site tidy_sys)
           (depth_limit tidy_sys)).
  - reflexivity.
  - intros d [H|[H|[H|[]]]]; subst d; reflexivity.
  - reflexivity.
  - apply Nat.leb_le. reflexivity.
Defined.

(** ** Only the clean phase deletes *)

Lemma dn_ret {A} (a : A) : deletes_nothing (ret a).
Proof. intros s. reflexivity. Qed.

Lemma dn_print line : deletes_nothing (py_print line).
Proof. intros s. reflexivity. Qed.

Lemma dn_bind {A B} (m : M A) (f : A -> M B) :
  deletes_nothing m -> (forall a, deletes_nothing (f a)) -> deletes_nothing (bind m f).
Proof.
  intros Hm Hf s. rewrite bind_run. specialize (Hm s).
  destruct (m s) as [[[a|e] s1] t1]; cbn [trace_of snd] in *; [|exact Hm].
  specialize (Hf a s1). destruct (f a s1) as [[o s2] t2]. cbn [trace_of snd] in *.
  rewrite rmtrees_app, Hm, Hf. reflexivity.
Qed.

Lemma dn_phase {A} ph v (m : M A) : deletes_nothing m -> deletes_nothing (phase ph v m).
Proof.
  intros Hm. unfold phase.
  apply dn_bind; [intros s; reflexivity | intros _].
  apply dn_bind; [exact Hm | intros a].
  apply dn_bind; [intros s; reflexivity | intros _; apply dn_ret].
Qed.

Section OnlyCleanDeletes.
Variable shell : string -> Sys -> Completed * Sys.
Variable load : string -> Sys -> Sys.

Lemma dn_run_command c d : deletes_nothing (run_command shell c d).
Proof.
  intros s. rewrite run_command_run. cbn [trace_of snd].
  unfold run_command_trace. cbn [rmtrees flat_map rmtree_of app].
  destruct (returncode (fst (shell c s)) =? 0)%Z.
  - destruct (nonempty (stdout (fst (shell c s)))); reflexivity.
  - destruct (nonempty (stderr (fst (shell c s)))); reflexivity.
Qed.

Lemma dn_require name : deletes_nothing (require shell load name).
Proof.
  unfold require.
  apply dn_bind; [intros s; rewrite py_import_run; reflexivity | intros [|]].
  - apply dn_bind; [apply dn_print | intros _; apply dn_ret].
  - apply dn_bind; [apply dn_print | intros _].
    apply dn_bind; [apply dn_print | intros _; apply dn_run_command].
Qed.

Lemma dn_check : deletes_nothing (check_requirements shell load).
Proof.
  rewrite check_requirements_require. apply dn_phase.
  apply dn_bind; [apply dn_print | intros _].
  apply dn_bind; [apply dn_require | intros [|]]; cbn [negb]; [|apply dn_ret].
  apply dn_bind; [apply dn_require | intros [|]]; apply dn_ret.
Qed.

Lemma dn_build : deletes_nothing (build_package shell).
Proof.
  unfold build_package. apply dn_phase.
  apply dn_bind; [apply dn_print | intros _].
  apply dn_bind; [apply dn_run_command | intros [|]]; cbn [negb]; [|apply dn_ret].
  apply dn_bind; [apply dn_run_command | intros [|]]; apply dn_ret.
Qed.

Lemma dn_install : deletes_nothing (install_package shell).
Proof.
  unfold install_package. apply dn_phase.
  apply dn_bind; [apply dn_print | intros _; apply dn_run_command].
Qed.

Lemma dn_tests : deletes_nothing (run_tests shell).
Proof.
  unfold run_tests. apply dn_phase.
  apply dn_bind; [apply dn_print | intros _; apply dn_run_command].
Qed.

Lemma dn_after_check (m : M bool) :
  deletes_nothing m ->
  deletes_nothing (ok <- check_requirements shell load ;; if ok then m ;; ret tt else ret tt).
Proof.
  intros Hm. apply dn_bind; [apply dn_check | intros [|]]; [|apply dn_ret].
  apply dn_bind; [exact Hm | intros _; apply dn_ret].
Qed.

Lemma dn_all_tail :
  deletes_nothing
    (ok <- check_requirements shell load ;;
     if ok then
       built <- build_package shell ;;
       if built then
         installed <- install_package shell ;;
         if installed then run_tests shell ;; ret tt else ret tt
       else ret tt
     else ret tt).
Proof.
  apply dn_bind; [apply dn_check | intros [|]]; [|apply dn_ret].
  apply dn_bind; [apply dn_build | intros [|]]; [|apply dn_ret].
  apply dn_bind; [apply dn_install | intros [|]]; [|apply dn_ret].
  apply dn_bind; [apply dn_tests | intros _; apply dn_ret].
Qed.

Lemma dn_default_tail :
  deletes_nothing
    (ok <- check_requirements shell load ;;
     if ok then
       built <- build_package shell ;;
       if built then
         py_print "\nBuild completed successfully!" ;;
         py_print "\nTo install run:" ;;
         py_print "python build.py install" ;;
         py_print "\nTo run tests:" ;;
         py_print "python build.py test"
       else ret tt
     else ret tt).
Proof.
  apply dn_bind; [apply dn_check | intros [|]]; [|apply dn_ret].
  apply dn_bind; [apply dn_build | intros [|]]; [|apply dn_ret].
  intros s. reflexivity.
Qed.

Lemma after_clean_deletes (k : M unit) s :
  deletes_nothing k ->
  rmtrees (trace_of ((clean_build ;; k) s)) = rmtrees (trace_of (clean_build s)).
Proof.
  intros Hk. rewrite bind_run.
  destruct (clean_build s) as [[[[]|e] s1] t1]; [|reflexivity].
  specialize (Hk s1). destruct (k s1) as [[o s2] t2]. cbn [trace_of snd] in *.
  rewrite rmtrees_app, Hk. apply app_nil_r.
Qed.

(** X15.  Only the clean phase deletes: what a run of [main] hands to
    [shutil.rmtree] is what [clean_build] hands to it on the starting
    machine, when [setup.py] is there and the command line runs the clean
    phase (no command, [clean], [build] or [all]), and nothing otherwise;
    the commands [install] and [test], an unknown command and a run
    without [setup.py] delete nothing. *)
Theorem only_the_clean_phase_deletes argv s :
  rmtrees (trace_of (main shell load argv s)) =
  if has_marker s && runs_clean argv
  then rmtrees (trace_of (clean_build s))
  else [].
Proof.
  rewrite main_run. unfold has_marker.
  destruct (lookup ["setup.py"] (cwd s)) as [m|]; [|reflexivity].
  cbn [andb].
  assert (Hb : forall r : Outcome unit * Sys * list Event,
            rmtrees (trace_of (let '(o, s', t) := r in (o, s', banner ++ t))) =
            rmtrees (trace_of r)).
  { intros [[o s'] t]. cbn [trace_of snd]. rewrite rmtrees_app. reflexivity. }
  rewrite Hb.
  destruct argv as [|script [|a rest]].
  - change (dispatch shell load []) with (dispatch shell load ["python"]).
    rewrite dispatch_default. cbn [runs_clean].
    apply after_clean_deletes, dn_default_tail.
  - rewrite dispatch_default. cbn [runs_clean].
    apply after_clean_deletes, dn_default_tail.
  - unfold dispatch. cbn [length Nat.ltb Nat.leb nth runs_clean existsb].
    destruct (a =? "clean") eqn:E1; [reflexivity|].
    destruct (a =? "build") eqn:E2.
    { cbn [orb]. apply after_clean_deletes, dn_after_check, dn_build. }
    destruct (a =? "install") eqn:E3.
    { apply String.eqb_eq in E3. subst a. cbn [orb String.eqb Ascii.eqb Bool.eqb].
      apply dn_after_check, dn_install. }
    destruct (a =? "test") eqn:E4.
    { apply String.eqb_eq in E4. subst a. cbn [orb String.eqb Ascii.eqb Bool.eqb].
      apply dn_after_check, dn_tests. }
    destruct (a =? "all") eqn:E5.
    { cbn [orb]. apply after_clean_deletes, dn_all_tail. }
    reflexivity.
Qed.
End OnlyCleanDeletes.
